(** * evofr: inference orchestration and generative-model factories

    A shallow embedding of

    - [evofr/infer/InferBlackJax.py]: the two backend strategies
      ([BlackJaxNumpyro], [BlackJaxProvided]) and the orchestrator
      [BlackJaxHandler];
    - [evofr/models/renewal_model/model_factories.py]: the deterministic
      array computations of [_renewal_model] and [_variant_model];
    - [evofr/models/multinomial_logistic_regression.py]: the coefficient
      matrix of [MLR_numpyro].

    Python dictionaries are [gmap string _]; a Python attribute that an
    object may lack is an [attr]; a Python value that may be [None] is an
    [option]; an exception is the [Raise] branch of [result].  jax, blackjax
    and numpyro are collaborators: their functions are the fields of a
    class, deterministic (jax's random numbers are a pure function of the
    key) and free to throw.  Floating-point arrays are modelled over the
    real numbers, with NaN as [None] where the code produces one. *)

From Stdlib Require Import Reals Lra ZArith.
From stdpp Require Import gmap strings list fin_maps.

Open Scope Z_scope.

(** ** Python values *)

(** [hasattr(obj, name)]: [None] is an attribute the object lacks. *)
Abbreviation attr := option (only parsing).

Inductive exn : Type :=
| AttributeError (name : string)
    (* reading an attribute the object does not have *)
| CollaboratorError (what : string)
    (* anything thrown inside jax, blackjax, numpyro or a model's callable *)
| ConfigurationError.
    (* the error class the specification names; nothing in
       InferBlackJax.py constructs it *)

Inductive result (A : Type) : Type :=
| Ok (a : A)
| Raise (e : exn).
Arguments Ok {A} a.
Arguments Raise {A} e.

(** What a call into a collaborator does: it returns or it throws. *)
Inductive outcome (A : Type) : Type :=
| Returns (a : A)
| Throws (what : string).
Arguments Returns {A} a.
Arguments Throws {A} what.

Definition call {A} (o : outcome A) : result A :=
  match o with
  | Returns a => Ok a
  | Throws s => Raise (CollaboratorError s)
  end.

Definition getattr {A} (name : string) (a : attr A) : result A :=
  match a with
  | Some v => Ok v
  | None => Raise (AttributeError name)
  end.

Definition rbind {A B} (r : result A) (k : A → result B) : result B :=
  match r with
  | Ok a => k a
  | Raise e => Raise e
  end.

Declare Scope py_scope.
Delimit Scope py_scope with py.
Notation "'do' p <- r ;; k" := (rbind r (fun p => k))
  (at level 100, p pattern, r at next level, right associativity) : py_scope.

(** A method of an object of class [S]: it returns or raises, and leaves
    the object as it has mutated it up to that point. *)
Definition method (S A : Type) : Type := S → result A * S.

Definition ret {S A} (a : A) : method S A := fun self => (Ok a, self).

Definition mbind {S A B} (m : method S A) (k : A → method S B) : method S B :=
  fun self =>
    match m self with
    | (Ok a, self) => k a self
    | (Raise e, self) => (Raise e, self)
    end.

(** A computation that does not touch the object. *)
Definition pure {S A} (r : result A) : method S A := fun self => (r, self).

(** Reading an attribute that [__init__] has set. *)
Definition read {S A} (field : S → A) : method S A :=
  fun self => (Ok (field self), self).

Declare Scope method_scope.
Delimit Scope method_scope with method.
Notation "'do' p <- m ;; k" := (mbind m (fun p => k))
  (at level 100, p pattern, m at next level, right associativity) : method_scope.

(** [{**a, **b}]: the keys of both, [b] winning where both have one. *)
Definition dict_merge {V} (a b : gmap string V) : gmap string V := b ∪ a.

(** [evofr.infer.backends.Backend] is not among the sources read here;
    the code compares a backend with [Backend.NUMPYRO] and
    [Backend.PROVIDED] and has a last branch for any other value. *)
Inductive Backend : Type :=
| NUMPYRO
| PROVIDED
| OtherBackend (tag : string).

(** ** Carriers and collaborators *)

(** The types jax and blackjax own. *)
Class Carriers : Type := {
  Key : Type;       (* a jax PRNG key *)
  Array : Type;     (* a jax array *)
  Data : Type;      (* the augmented data dictionary *)
  ModelFn : Type;   (* a numpyro model function *)
  Kwargs : Type;    (* **kernel_kwargs *)
  Density : Type;   (* a log-density value *)
  Aux : Type;       (* what a sampler state holds besides its position *)
  Info : Type       (* a transition's diagnostics *)
}.

(** A position and a sample set are dictionaries from a quantity's name
    to an array. *)
Abbreviation Position := (gmap string Array) (only parsing).
Abbreviation Samples := (gmap string Array) (only parsing).

Section Types.
Context `{Carriers}.

(** A log-density function; [lambda _: None] is [fun _ => None]. *)
Definition Logdensity : Type := Position → option Density.

(** One sampler state: blackjax's states are tuples with a [position]. *)
Record State : Type := mkState {
  position : Position;
  aux : Aux
}.

(** What [jax.lax.scan] returns for the states of a whole run: the same
    tuple with every leaf stacked along a new leading axis. *)
Record States : Type := mkStates {
  positions : Position;   (* [states.position] *)
  auxs : list Aux
}.

(** A transition kernel as [inference_loop] calls it. *)
Definition StepFn : Type := Key → State → outcome (State * Info).

(** What [kernel_fn(logdensity_fn, **kernel_kwargs)] returns: it has
    [init] and is called as [kernel(rng_key, state)]. *)
Record Sampler : Type := mkSampler {
  init : option Position → outcome State;
  step : StepFn
}.

Definition KernelFn : Type := Logdensity → Kwargs → outcome Sampler.

(** [blackjax.window_adaptation(...)]: an object with [run]. *)
Record Adaptation : Type := mkAdaptation {
  run : Key → option Position → outcome (State * StepFn)
}.

(** A [ModelSpec] as the resolver probes it with [hasattr]. *)
Record ModelSpec : Type := mkModelSpec {
  backend : attr (option Backend);
  model_fn : attr ModelFn;
  logdensity_fn_gen : attr (Data → outcome Logdensity);
  logdensity_fn : attr Logdensity;
  initial_position : attr (option Position);
  initial_position_fn : attr (Key → outcome (option Position));
  pred_fn : attr (Key → Samples → Data → outcome Samples)
}.

End Types.

(** The functions of jax, numpyro and blackjax the module calls. *)
Class Collaborators `{Carriers} : Type := {
  PRNGKey : Z → Key;
  (* [random.split(key)], unpacked as [a, b = random.split(key)] *)
  split : Key → Key * Key;
  (* [random.split(key, num)] *)
  split_n : Key → Z → outcome (list Key);
  (* stacking the per-step values of one leaf *)
  stack : list Array → Array;
  neg : Density → Density;
  (* [initialize_model(subkey, model, model_kwargs=data, dynamic_args=True)]:
     [init_parms.z] and [potential_fn_gen] *)
  initialize_model :
    Key → ModelFn → Data → outcome (Position * (Data → Position → Density));
  (* [Predictive(model, samples)(subkey, pred=True, **data)] *)
  Predictive : ModelFn → Samples → Key → Data → outcome Samples;
  (* [blackjax.window_adaptation(kernel_fn, logdensity_fn, **kwargs,
     num_steps=num_warmup)] *)
  window_adaptation : KernelFn → Logdensity → Kwargs → Z → outcome Adaptation
}.

(** ** InferBlackJax.py *)

Section InferBlackJax.
Context `{Collaborators}.
Open Scope py_scope.

(** *** class BlackJaxNumpyro *)

Definition BlackJaxNumpyro_init (key : Key) (model : ModelFn) (data : Data)
  : result (option Position * Logdensity) :=
  let '(key, subkey) := split key in
  do (z, potential_fn_gen) <- call (initialize_model subkey model data) ;;
  let logdensity_fn : Logdensity :=
    fun position => Some (neg (potential_fn_gen data position)) in
  let initial_position := Some z in
  Ok (initial_position, logdensity_fn).

Definition BlackJaxNumpyro_predict (key : Key) (model : ModelFn) (data : Data)
  (samples : Samples) : result Samples :=
  let predictive := Predictive model samples in
  let '(key, subkey) := split key in
  do samples_pred <- call (predictive subkey data) ;;
  Ok (dict_merge samples samples_pred).

(** *** class BlackJaxProvided *)

Definition BlackJaxProvided_init (key : Key) (model : ModelSpec) (data : Data)
  : result (option Position * Logdensity) :=
  do logdensity_fn <-
    match logdensity_fn_gen model with
    | Some gen => call (gen data)
    | None =>
      match logdensity_fn model with
      | Some f => Ok f
      | None => Ok (fun _ => None)
      end
    end ;;
  do init_position <-
    match initial_position model with
    | Some p => Ok p
    | None =>
      match initial_position_fn model with
      | Some f => call (f key)
      | None => Ok None
      end
    end ;;
  Ok (init_position, logdensity_fn).

Definition BlackJaxProvided_predict (key : Key) (model : ModelSpec)
  (data : Data) (samples : Samples) : result Samples :=
  match pred_fn model with
  | None => Ok samples
  | Some f =>
    do samples_pred <- call (f key samples data) ;;
    Ok (dict_merge samples samples_pred)
  end.

(** *** class BlackJaxHandler *)

Record BlackJaxHandler : Type := mkHandler {
  kernel_fn : KernelFn;
  kernel_kwargs : Kwargs;
  seed : Z;
  rng_key : Key;
  (* [self.state], which [__init__] sets to [None] and nothing reads *)
  state : option State;
  (* [self.states] and [self.infos]: attributes only [fit] creates *)
  states : attr (option States);
  infos : attr (list Info)
}.

Definition __init__ (kernel : KernelFn) (kernel_kwargs : Kwargs)
  : BlackJaxHandler :=
  let seed := 100 in
  {| kernel_fn := kernel;
     kernel_kwargs := kernel_kwargs;
     seed := seed;
     rng_key := PRNGKey seed;
     state := None;
     states := None;
     infos := None |}.

Definition set_rng_key (k : Key) (self : BlackJaxHandler) : BlackJaxHandler :=
  {| kernel_fn := kernel_fn self;
     kernel_kwargs := kernel_kwargs self;
     seed := seed self;
     rng_key := k;
     state := state self;
     states := states self;
     infos := infos self |}.

Definition set_states_infos (s : States) (i : list Info)
  (self : BlackJaxHandler) : BlackJaxHandler :=
  {| kernel_fn := kernel_fn self;
     kernel_kwargs := kernel_kwargs self;
     seed := seed self;
     rng_key := rng_key self;
     state := state self;
     states := Some (Some s);
     infos := Some i |}.

(** [jax.lax.scan(one_step, initial_state, keys)]: the carry goes from
    one step to the next in the order of [keys]; the per-step outputs
    are collected in that order. *)
Fixpoint scan {C X Y} (f : C → X → outcome (C * Y)) (carry : C) (xs : list X)
  : result (C * list Y) :=
  match xs with
  | [] => Ok (carry, [])
  | x :: xs =>
    do (carry, y) <- call (f carry x) ;;
    do (carry, ys) <- scan f carry xs ;;
    Ok (carry, y :: ys)
  end.

(** The stacked states of a run.  scan fixes the structure of its output
    from the carry it is given (a kernel must return a state of the same
    structure): every parameter of the position is a key, also when no
    step was taken. *)
Definition stack_states (init_state : State) (ss : list State) : States :=
  {| positions :=
       map_imap (fun name _ => Some (stack (omap (fun s => position s !! name) ss)))
                (position init_state);
     auxs := aux <$> ss |}.

Definition inference_loop (rng_key : Key) (kernel : StepFn)
  (initial_state : State) (num_samples : Z) : result (States * list Info) :=
  let one_step (state : State) (rng_key : Key) :=
    match kernel rng_key state with
    | Returns (state, info) => Returns (state, (state, info))
    | Throws s => Throws s
    end in
  do keys <- call (split_n rng_key num_samples) ;;
  do (_, ys) <- scan one_step initial_state keys ;;
  Ok (stack_states initial_state (fst <$> ys), snd <$> ys).

(** The backend a call resolves: the model's own when it has the
    attribute and the caller gave none. *)
Definition resolve_backend (model : ModelSpec) (requested : option Backend)
  : option Backend :=
  match backend model, requested with
  | Some b, None => b
  | _, _ => requested
  end.

Definition _initialize (key : Key) (model : ModelSpec) (data : Data)
  (backend : option Backend) : result (option Position * Logdensity) :=
  let backend := resolve_backend model backend in
  match backend with
  | None =>
    do f <- getattr "model_fn" (model_fn model) ;;
    BlackJaxNumpyro_init key f data
  | Some NUMPYRO =>
    do f <- getattr "model_fn" (model_fn model) ;;
    BlackJaxNumpyro_init key f data
  | Some PROVIDED => BlackJaxProvided_init key model data
  | Some (OtherBackend _) => Ok (None, fun _ => None)
  end.

Definition _predict (key : Key) (model : ModelSpec) (data : Data)
  (samples : Samples) (backend : option Backend) : result Samples :=
  let backend := resolve_backend model backend in
  match backend with
  | Some NUMPYRO =>
    do f <- getattr "model_fn" (model_fn model) ;;
    BlackJaxNumpyro_predict key f data samples
  | Some PROVIDED => BlackJaxProvided_predict key model data samples
  | None =>
    do f <- getattr "model_fn" (model_fn model) ;;
    BlackJaxNumpyro_predict key f data samples
  | Some (OtherBackend _) => Ok ∅
  end.

(** [self.rng_key, key = random.split(self.rng_key)] *)
Definition advance_rng_key : method BlackJaxHandler Key :=
  fun self =>
    let '(rng_key', key) := split (rng_key self) in
    (Ok key, set_rng_key rng_key' self).

Open Scope method_scope.

Definition run_warmup (initial_position : option Position)
  (logdensity_fn : Logdensity) (num_warmup : Z)
  : method BlackJaxHandler (State * StepFn) :=
  let num_warmup := if num_warmup <? 1 then 1 else num_warmup in
  do kernel_fn <- read kernel_fn ;;
  do kernel_kwargs <- read kernel_kwargs ;;
  do adapt <- pure (call (window_adaptation kernel_fn logdensity_fn
                                         kernel_kwargs num_warmup)) ;;
  do key <- advance_rng_key ;;
  do (last_state, kernel) <- pure (call (run adapt key initial_position)) ;;
  ret (last_state, kernel).

Definition fit (model : ModelSpec) (data : Data) (num_warmup num_samples : Z)
  : method BlackJaxHandler unit :=
  do key <- advance_rng_key ;;
  do (initial_position, logdensity_fn) <- pure (_initialize key model data None) ;;
  do (starting_state, kernel) <-
    (if 0 <? num_warmup then
       run_warmup initial_position logdensity_fn num_warmup
     else
       do kernel_fn <- read kernel_fn ;;
       do kernel_kwargs <- read kernel_kwargs ;;
       do kernel <- pure (call (kernel_fn logdensity_fn kernel_kwargs)) ;;
       do starting_state <- pure (call (init kernel initial_position)) ;;
       ret (starting_state, step kernel)) ;;
  do key <- advance_rng_key ;;
  do (states, infos) <-
    pure (inference_loop key kernel starting_state num_samples) ;;
  fun self => (Ok tt, set_states_infos states infos self).

(** The [samples] property. *)
Definition samples : method BlackJaxHandler Samples :=
  do states <- (fun self => (getattr "states" (states self), self)) ;;
  match states with
  | Some states => ret (positions states)
  | None => ret ∅
  end.

Definition predict (model : ModelSpec) (data : Data)
  : method BlackJaxHandler Samples :=
  do rng_key <- read rng_key ;;
  do samples <- samples ;;
  pure (_predict rng_key model data samples None).

Close Scope method_scope.
Close Scope py_scope.

(** [random.split(key)[0]]: the key a method stores back. *)
Definition advance (k : Key) : Key := (split k).1.

(** [extended] is [samples] extended with the predictive output
    [samples_pred]: it is their merge, it has every key of [samples], and
    it has the value of [samples] at every key that [samples_pred] does
    not have. *)
Definition extends_with (samples samples_pred extended : Samples) : Prop :=
  extended = dict_merge samples samples_pred
  ∧ dom samples ⊆ dom extended
  ∧ ∀ k v, samples !! k = Some v → samples_pred !! k = None →
           extended !! k = Some v.

End InferBlackJax.

(** ** Arrays *)

(** A matrix is the list of its rows; axis 0 (time) indexes the rows,
    axis 1 (variant) the entries of a row. *)
Abbreviation matrix A := (list (list A)) (only parsing).

Definition get2 {A} (m : matrix A) (r c : nat) : option A :=
  row ← m !! r; row !! c.

(** [m.at[r, c].set(x)] for one index pair; jax drops an update whose
    index lies outside the array. *)
Definition set2 {A} (r c : nat) (x : A) (m : matrix A) : matrix A :=
  alter (fun row => <[c := x]> row) r m.

(** [m.at[(rows, cols)].set(vals)]: the index pairs taken in order. *)
Definition at_set {A} (m : matrix A) (idx : list nat * list nat)
  (vals : list A) : matrix A :=
  foldl (fun m '(r, c, x) => set2 r c x m) m (zip (zip idx.1 idx.2) vals).

(** [np.arange(n)] and [np.tile(l, n)] on a vector. *)
Definition arange (n : nat) : list nat := seq 0 n.
Definition tile {A} (l : list A) (n : nat) : list A := concat (replicate n l).

(** [np.arange(a, b, 1)] *)
Definition arange2 (a b : nat) : list nat := seq a (b - a).

(** [jnp.take(m, idx, axis=0)] for indices inside [m]. *)
Definition jnp_take {A} (m : list A) (idx : list nat) : list A :=
  omap (fun i => m !! i) idx.

Definition column {A} (v : nat) (m : matrix A) : list (option A) :=
  (fun row : list A => row !! v) <$> m.

(** [m.shape] of a matrix with at least one row. *)
Definition shape {A} (m : matrix A) : nat * nat :=
  (length m, length (default [] (head m))).

(** [argmax] of a boolean vector: the first [True], or 0 when there is
    none (every entry is then the maximum). *)
Fixpoint argmax (l : list bool) : nat :=
  match l with
  | [] => 0%nat
  | b :: l => if b then 0%nat else if existsb (fun b => b) l then S (argmax l) else 0%nat
  end.

Module Renewal.

Open Scope R_scope.

Definition sum (l : list R) : R := foldr Rplus 0 l.

(** Every entry of every row is positive, and no row is empty. *)
Definition positive (m : matrix R) : Prop :=
  Forall (fun row : list R => row ≠ [] ∧ Forall (Rlt 0) row) m.

(** [m.sum(axis=1)] *)
Definition sum_axis1 (m : matrix R) : list R := sum <$> m.

(** [jnp.mean] of a vector. *)
Definition mean (l : list R) : R := sum l / INR (length l).

(** [jnp.divide(m, tot[:, None])] *)
Definition divide_rows (m : matrix R) (tot : list R) : matrix R :=
  zip_with (fun (row : list R) t => (fun x => x / t) <$> row) m tot.

(** A floating-point entry that may be NaN. *)
Definition nan_sub (a b : option R) : option R :=
  match a, b with
  | Some x, Some y => Some (x - y)
  | _, _ => None
  end.

(** Rows [1..] of [a[1:] - a[:-1]] where [prev] is the row before
    [rows]. *)
Fixpoint diff_from (prev : list (option R)) (rows : matrix (option R))
  : matrix (option R) :=
  match rows with
  | [] => []
  | row :: rows => zip_with nan_sub row prev :: diff_from row rows
  end.

(** [jnp.diff(m, prepend=jnp.nan, axis=0)]: a row of NaN goes before
    the rows of [m]. *)
Definition diff_prepend_nan (m : matrix R) : matrix (option R) :=
  diff_from (replicate (shape m).2 None) ((fun row : list R => Some <$> row) <$> m).

(** *** model_factories.py: _renewal_model *)

(** An observed sequence count; [None] is an entry that
    [np.ma.masked_invalid] masks (NaN). *)
Abbreviation count := (option Z) (only parsing).

(** [masked != 0] with the masked entries filled as [argmax] fills them
    (the smallest value, [False]). *)
Definition nonzero (c : count) : bool :=
  match c with
  | Some n => negb (n =? 0)%Z
  | None => false
  end.

(** [(np.ma.masked_invalid(np.array(seq_counts)) != 0).argmax(axis=0)] *)
Definition first_obs (seq_counts : matrix count) : list nat :=
  let '(_, N_variant) := shape seq_counts in
  (fun v => argmax ((fun c => nonzero (mjoin c)) <$> column v seq_counts))
    <$> arange N_variant.

Definition obs_range (seed_L T : nat) : list nat :=
  arange2 seed_L (seed_L + T).

(** [np.concatenate([first_obs + d for d in np.arange(0, seed_L)])] *)
Definition intro_dates (first_obs : list nat) (seed_L : nat) : list nat :=
  concat ((fun d => (fun f => (f + d)%nat) <$> first_obs) <$> arange seed_L).

Definition intro_idx (seq_counts : matrix count) (seed_L : nat)
  : list nat * list nat :=
  let '(_, N_variant) := shape seq_counts in
  (intro_dates (first_obs seq_counts) seed_L,
   tile (arange N_variant) seed_L).

(** [jnp.exp(logI0)] with [logI0 = sample("logI0") * 3.0] *)
Definition I0 (logI0_sample : list R) : list R :=
  (fun x => exp (x * 3)) <$> logI0_sample.

(** The introductions: zero everywhere, then the seed of every variant
    written at the rows of [intro_idx]. *)
Definition intros (seq_counts : matrix count) (seed_L forecast_L : nat)
  (logI0_sample : list R) : matrix R :=
  let '(T, N_variant) := shape seq_counts in
  let intros := replicate (T + seed_L + forecast_L)%nat (replicate N_variant 0) in
  at_set intros (intro_idx seq_counts seed_L) (tile (I0 logI0_sample) seed_L).

(** The reporting cycle handed to [reporting_to_vec]: the sampled
    logits, a last logit 0, exponentiated and divided by their sum. *)
Definition rho (rho_logits_sample : list R) : list R :=
  let rho_logits := (fun x => x * 3) <$> rho_logits_sample in
  let rho := exp <$> (rho_logits ++ [0]) in
  (fun x => x / sum rho) <$> rho.

(** The deterministic sites that depend on the prevalence.  [I_prev] is
    the clipped output of [forward_simulate_I] and [rho_vec] that of
    [reporting_to_vec], both of model_functions.py. *)
Section Sites.
Variable I_prev : matrix R.
Variable rho_vec : list R.
Variables seed_L T : nat.

Definition I_smooth : matrix R :=
  (fun row : list R => (fun x => mean rho_vec * x) <$> row)
    <$> jnp_take I_prev (obs_range seed_L T).

Definition r : matrix (option R) :=
  diff_prepend_nan ((fun row : list R => ln <$> row) <$> jnp_take I_prev (obs_range seed_L T)).

Definition total_prev : list R := sum_axis1 I_prev.

Definition _freq : matrix R := divide_rows I_prev total_prev.

Definition freq : matrix R := jnp_take _freq (obs_range seed_L T).

End Sites.

End Renewal.

(** *** model_factories.py: _variant_model (the spline model) *)

Module Spline.

Open Scope R_scope.

(** [jnp.dot(X, B)] *)
Definition dot (X B : matrix R) : matrix R :=
  (fun xrow : list R =>
     foldr (fun '(x, brow) acc => zip_with Rplus ((Rmult x) <$> (brow : list R)) acc)
           (replicate (shape B).2 0) (zip xrow B)) <$> X.

(** [m.T] of a matrix with [k] columns. *)
Definition transpose (k : nat) (m : matrix R) : matrix R :=
  (fun j => (fun row : list R => default 0 (row !! j)) <$> m) <$> arange k.

(** [beta_0 + jnp.concatenate([jnp.array([0.0]), beta_rw])] *)
Definition beta (beta_0 : R) (beta_rw : list R) : list R :=
  (fun b => beta_0 + b) <$> (0 :: beta_rw).

(** [jnp.hstack((delta, jnp.zeros((k, 1))))] *)
Definition hstack_zeros (k : nat) (delta : matrix R) : matrix R :=
  zip_with app delta (replicate k [0]).

(** [beta[:, None] + jnp.hstack((delta, jnp.zeros((k, 1))))] with
    [delta = delta_rw.T] *)
Definition beta_mat (k : nat) (beta : list R) (delta_rw : matrix R) : matrix R :=
  let delta := transpose k delta_rw in
  zip_with (fun b (row : list R) => (fun d => b + d) <$> row) beta (hstack_zeros k delta).

Definition incidence (X beta_mat : matrix R) : matrix R :=
  (fun row : list R => exp <$> row) <$> dot X beta_mat.

(** The reporting cycle handed to [reporting_to_vec]: the seven sampled
    [Beta(5, 5)] fractions themselves. *)
Definition rho (rho_sample : list R) : list R := rho_sample.

Definition freq (incidence : matrix R) : matrix R :=
  Renewal.divide_rows incidence (Renewal.sum_axis1 incidence).

End Spline.

(** *** multinomial_logistic_regression.py: MLR_numpyro *)

Module MLR.

Open Scope R_scope.

(** [jnp.zeros(n)] *)
Definition zeros (n : nat) : list R := replicate n 0.

(** [jnp.column_stack((m, v))]: the vector [v] becomes the last column. *)
Definition column_stack (m : matrix R) (v : list R) : matrix R :=
  zip_with (fun (row : list R) x => row ++ [x]) m v.

Definition beta (N_features : nat) (raw_beta : matrix R) : matrix R :=
  column_stack raw_beta (zeros N_features).

End MLR.

(** ** The rest of the models *)

(** What an indexing operation of Python or numpy does: it finds the
    entry or raises. *)
Inductive lookup_error : Type :=
| ValueError (what : string)   (* [list.index] of an absent element *)
| KeyError (key : string).     (* [d[key]] of an absent key *)

Inductive found (A : Type) : Type :=
| Found (a : A)
| NotFound (e : lookup_error).
Arguments Found {A} a.
Arguments NotFound {A} e.

(** [names.index(s)]: where [s] first occurs. *)
Fixpoint index (names : list string) (s : string) : found nat :=
  match names with
  | [] => NotFound (ValueError s)
  | n :: names =>
    if decide (n = s) then Found 0%nat
    else match index names s with
         | Found i => Found (S i)
         | NotFound e => NotFound e
         end
  end.

(** [[names.index(s) for s in var_names]] *)
Fixpoint indices (names var_names : list string) : found (list nat) :=
  match var_names with
  | [] => Found []
  | s :: var_names =>
    match index names s with
    | Found i =>
      match indices names var_names with
      | Found v_idx => Found (i :: v_idx)
      | NotFound e => NotFound e
      end
    | NotFound e => NotFound e
    end
  end.

(** [d[key]] *)
Definition getitem {V} (key : string) (d : gmap string V) : found V :=
  match d !! key with
  | Some v => Found v
  | None => NotFound (KeyError key)
  end.

(** *** model_factories.py: the other sites of _renewal_model *)

Module RenewalModel.

Open Scope R_scope.
Import Renewal.

(** The reversed generation times: one vector ([g_rev.ndim == 1]) or
    one row per variant. *)
Inductive generation_times : Type :=
| SharedTimes (g : list R)
| TimesByVariant (g : matrix R).

(** Lines 35-45: the rows of [g_rev] put in the order of the data's
    variants, when the generation times come with their own names.  The
    row indices come from [gen_v_names], so they are inside [g_rev] when
    it has a row for every name. *)
Definition _g_rev (g_rev : generation_times)
  (gen_v_names : option (list string)) (var_names : list string)
  : found generation_times :=
  match g_rev with
  | SharedTimes g => Found (SharedTimes g)
  | TimesByVariant g =>
    match gen_v_names with
    | None => Found (TimesByVariant g)
    | Some gen_v_names =>
      match indices gen_v_names var_names with
      | Found v_idx => Found (TimesByVariant (jnp_take g v_idx))
      | NotFound e => NotFound e
      end
    end
  end.

(** [jnp.vstack((_R[-1, :],) * forecast_L)]; an [_R] without rows has
    no last row to repeat. *)
Definition R_forecast (_R : matrix R) (forecast_L : nat) : option (matrix R) :=
  row ← last _R; Some (replicate forecast_L row).

(** Lines 70-77, the variable [R]: the reproduction numbers with their
    forecast. *)
Definition R_with_forecast (_R : matrix R) (forecast_L : nat)
  : option (matrix R) :=
  if (0 <? forecast_L)%nat then
    R_forecast ← R_forecast _R forecast_L; Some (_R ++ R_forecast)
  else Some _R.

Section Sites.
Variable I_prev : matrix R.
Variable rho_vec : list R.
Variable _R : matrix R.
Variables seed_L T : nat.

Definition total_smooth_prev : list R :=
  (fun x => mean rho_vec * x)
    <$> jnp_take (total_prev I_prev) (obs_range seed_L T).

Definition EC : list R :=
  zip_with Rmult (jnp_take (total_prev I_prev) (obs_range seed_L T)) rho_vec.

(** [(_R * freq).sum(axis=1)] *)
Definition R_ave : list R :=
  sum_axis1 (zip_with (zip_with Rmult) _R (freq I_prev seed_L T)).

(** The forecast sites, [m[(seed_L + T):, :]] being the rows of [m]
    from [seed_L + T] on. *)
Definition freq_forecast : matrix R := drop (seed_L + T) (_freq I_prev).



End Sites.

End RenewalModel.

(** *** multinomial_logistic_regression.py: the other functions *)

Module MLRModel.

Open Scope R_scope.
Import Renewal.

(** [np.arange(start, stop)] on integers. *)
Definition arangeZ (start stop : Z) : list Z :=
  (fun i => (start + Z.of_nat i)%Z) <$> seq 0 (Z.to_nat (stop - start)).


(** [softmax(logits, axis=-1)]: over the reals, subtracting the row's
    maximum first (as jax does) changes nothing. *)
Definition softmax_row (logits : list R) : list R :=
  let e := exp <$> logits in (fun x => x / sum e) <$> e.

Definition softmax (logits : matrix R) : matrix R := softmax_row <$> logits.

(** [MLR_numpyro]: the deterministic sites, [beta] being [MLR.beta]. *)
Definition logits (X beta : matrix R) : matrix R := Spline.dot X beta.

Definition freq (X beta : matrix R) : matrix R := softmax (logits X beta).

(** [jnp.exp(beta[-1, :-1] * tau)], a site only when [tau] is given. *)
Definition ga (beta : matrix R) (tau : option R) : option (list R) :=
  tau ← tau;
  row ← last beta;
  Some ((fun b => exp (b * tau)) <$> removelast row).

(** [make_ols_feature]: a column of ones beside the times. *)
Definition make_ols_feature (start stop : Z) : matrix Z :=
  (fun t => [1%Z; t]) <$> arangeZ start stop.

(** A feature matrix of integers where jax multiplies it with floats. *)
Definition as_float (X : matrix Z) : matrix R :=
  (fun row : list Z => IZR <$> row) <$> X.

(** The entries of a sample set here are arrays with the draws on
    axis 0: one matrix per draw. *)
Abbreviation draws := (list (list (list R))) (only parsing).

(** [a.shape[1]] of such an array with at least one draw. *)
Definition shape1 (a : draws) : Z := Z.of_nat (length (default [] (head a))).

(** [forecast_frequencies]: the features of the [forecast_L] days after
    the last fitted one, times every posterior [beta], through softmax,
    written into [samples] under ["freq_forecast"]. *)
Definition forecast_frequencies (samples : gmap string draws) (forecast_L : Z)
  : found (gmap string draws) :=
  match getitem "freq" samples with
  | NotFound e => NotFound e
  | Found freq =>
    let last_T := shape1 freq in
    let X := make_ols_feature last_T (last_T + forecast_L) in
    match getitem "beta" samples with
    | NotFound e => NotFound e
    | Found beta =>
      let logits := (fun b : matrix R => Spline.dot (as_float X) b) <$> beta in
      Found (<["freq_forecast" := softmax <$> logits]> samples)
    end
  end.

End MLRModel.

(** ** A small instance of the collaborators

    Keys are positive numbers split into their two binary successors, an
    array is the list of its entries, the model has one parameter ["x"]
    and one predicted quantity ["y"], and the kernel leaves a state where
    it is.  The orchestrator is run on it below. *)

Module Toy.

#[export] Instance carriers : Carriers := {|
  Key := positive;
  Array := list Z;
  Data := unit;
  ModelFn := unit;
  Kwargs := unit;
  Density := Z;
  Aux := unit;
  Info := unit
|}.

Definition still : StepFn := fun _ st => Returns (st, tt).

Definition start (ip : option Position) : State :=
  {| position := default ∅ ip; aux := tt |}.

#[export] Instance collaborators : Collaborators := {|
  PRNGKey := Z.to_pos;
  split := fun k => (k~0, k~1)%positive;
  split_n := fun k n =>
    if n <? 0 then Throws "negative key count"
    else Returns ((fun i => (k + Pos.of_succ_nat i)%positive)
                    <$> seq 0 (Z.to_nat n));
  stack := fun draws => concat draws;
  neg := Z.opp;
  initialize_model := fun _ _ _ =>
    Returns ({["x" := [0]]}, fun _ _ => 0);
  Predictive := fun _ _ k _ => Returns {["y" := [Z.pos k]]};
  window_adaptation := fun _ _ _ _ =>
    Returns {| run := fun _ ip => Returns (start ip, still) |}
|}.

Definition kernel : KernelFn :=
  fun _ _ => Returns {| init := fun ip => Returns (start ip); step := still |}.

(** A model that leaves the backend to the default. *)
Definition model : ModelSpec :=
  {| backend := None; model_fn := Some tt;
     logdensity_fn_gen := None; logdensity_fn := None;
     initial_position := None; initial_position_fn := None;
     pred_fn := None |}.

(** A model whose backend is neither NUMPYRO nor PROVIDED. *)
Definition model_other : ModelSpec :=
  {| backend := Some (Some (OtherBackend "other")); model_fn := Some tt;
     logdensity_fn_gen := None; logdensity_fn := None;
     initial_position := None; initial_position_fn := None;
     pred_fn := None |}.

(** A PROVIDED model whose predictive function recomputes ["x"]. *)
Definition model_provided : ModelSpec :=
  {| backend := Some (Some PROVIDED); model_fn := None;
     logdensity_fn_gen := None; logdensity_fn := None;
     initial_position := Some (Some {["x" := [0]]});
     initial_position_fn := None;
     pred_fn := Some (fun _ _ _ => Returns {["x" := [7]]}) |}.

Definition fresh : BlackJaxHandler := __init__ kernel tt.

Definition drawn : Samples := {["x" := [1; 2]]}.


End Toy.

(** * Properties *)

(** ** The resolver and the orchestrator *)

Section InferBlackJaxFacts.
Context `{Collaborators}.

Lemma advance_rng_key_spec (self : BlackJaxHandler) :
  advance_rng_key self
  = (Ok (split (rng_key self)).2, set_rng_key (advance (rng_key self)) self).
Proof. unfold advance_rng_key, advance. by destruct (split (rng_key self)). Qed.

Lemma dict_merge_lookup {V} (a b : gmap string V) (k : string) :
  dict_merge a b !! k = match b !! k with Some v => Some v | None => a !! k end.
Proof.
  unfold dict_merge. rewrite lookup_union.
  destruct (b !! k), (a !! k); reflexivity.
Qed.

Lemma dict_merge_dom {V} (a b : gmap string V) : dom a ⊆ dom (dict_merge a b).
Proof. unfold dict_merge. rewrite dom_union. set_solver. Qed.

Lemma dict_merge_keeps {V} (a b : gmap string V) (k : string) (v : V) :
  a !! k = Some v → b !! k = None → dict_merge a b !! k = Some v.
Proof. intros Ha Hb. by rewrite dict_merge_lookup, Hb. Qed.

Lemma extends_with_merge (samples samples_pred : Samples) :
  extends_with samples samples_pred (dict_merge samples samples_pred).
Proof.
  split; [done|]. split; [apply dict_merge_dom|].
  intros k v. apply dict_merge_keeps.
Qed.

Lemma BlackJaxNumpyro_predict_unfold key f data (samples : Samples) :
  BlackJaxNumpyro_predict key f data samples
  = match Predictive f samples (split key).2 data with
    | Returns samples_pred => Ok (dict_merge samples samples_pred)
    | Throws s => Raise (CollaboratorError s)
    end.
Proof.
  unfold BlackJaxNumpyro_predict. destruct (split key) as [k sub]. simpl.
  by destruct (Predictive f samples sub data).
Qed.

(** C1, as amended.  For a backend that resolves to the numpyro default
    or to NUMPYRO, the predictive path returns when [Predictive] does, and
    for PROVIDED when the model's [pred_fn] does; the result is then
    [{**samples, **samples_pred}]: every key of [samples] is a key of it,
    and it has the value of [samples] at every key the predictive output
    does not produce as well (the predictive value wins on a shared key).
    A PROVIDED model without [pred_fn] gets [samples] back.  The path
    raises what the collaborator throws, or AttributeError for a model
    without [model_fn].  For any other backend value it returns the empty
    mapping. *)
Theorem _predict_extends_or_empties key model data (samples : Samples) requested :
  let returned := _predict key model data samples requested in
  let extended_with (out : outcome Samples) :=
    match out with
    | Returns samples_pred =>
      ∃ extended, returned = Ok extended
                  ∧ extends_with samples samples_pred extended
    | Throws s => returned = Raise (CollaboratorError s)
    end in
  match resolve_backend model requested with
  | Some (OtherBackend _) => returned = Ok ∅
  | Some PROVIDED =>
    match pred_fn model with
    | Some f => extended_with (f key samples data)
    | None => returned = Ok samples
    end
  | Some NUMPYRO | None =>
    match model_fn model with
    | Some f => extended_with (Predictive f samples (split key).2 data)
    | None => returned = Raise (AttributeError "model_fn")
    end
  end.
Proof.
  unfold _predict.
  destruct (resolve_backend model requested) as [[| |tag]|]; [| |done|].
  - destruct (model_fn model) as [f|]; simpl; [|done].
    rewrite BlackJaxNumpyro_predict_unfold.
    destruct (Predictive f samples (split key).2 data) as [sp|s]; [|done].
    eexists. split; [done|]. apply extends_with_merge.
  - unfold BlackJaxProvided_predict. destruct (pred_fn model) as [f|]; [|done].
    destruct (f key samples data) as [sp|s]; simpl; [|done].
    eexists. split; [done|]. apply extends_with_merge.
  - destruct (model_fn model) as [f|]; simpl; [|done].
    rewrite BlackJaxNumpyro_predict_unfold.
    destruct (Predictive f samples (split key).2 data) as [sp|s]; [|done].
    eexists. split; [done|]. apply extends_with_merge.
Qed.

(** *** The stored key *)

Lemma run_warmup_rng_key initial_position logdensity_fn num_warmup self :
  let out := run_warmup initial_position logdensity_fn num_warmup self in
  (rng_key out.2 = rng_key self ∧ ∃ e, out.1 = Raise e)
  ∨ rng_key out.2 = advance (rng_key self).
Proof.
  unfold run_warmup, mbind, read, pure, ret. simpl.
  destruct (call (window_adaptation _ _ _ _)) as [adapt|e]; simpl.
  - right. rewrite advance_rng_key_spec.
    destruct (call (run adapt _ _)) as [[st k]|e]; reflexivity.
  - left. eauto.
Qed.

(** [predict] reads the stored key and hands that very key to the
    resolver; it assigns nothing. *)
Lemma predict_unfold model data self :
  predict model data self
  = (match (samples self).1 with
     | Ok s => _predict (rng_key self) model data s None
     | Raise e => Raise e
     end, self).
Proof.
  unfold predict, samples, mbind, read, pure, ret. simpl.
  destruct (getattr "states" (states self)) as [[st|]|e]; reflexivity.
Qed.

(** C2 at the orchestrator's [predict].  [fit] and [run_warmup] store
    the first half of [random.split(self.rng_key)] back before they use
    the second; [predict] passes [self.rng_key] itself on and stores
    nothing, so the stored key after [predict] is the stored key before
    it: it has not advanced. *)
Theorem predict_leaves_rng_key model data self :
  (predict model data self).2 = self
  ∧ rng_key (predict model data self).2 = rng_key self.
Proof. by rewrite predict_unfold. Qed.

(** *** [fit] *)

Ltac step_method :=
  unfold fit, run_warmup, samples, mbind, read, pure, ret; simpl;
  rewrite ?advance_rng_key_spec; simpl.

Ltac split_cases :=
  repeat (case_match; simplify_eq/=; rewrite ?advance_rng_key_spec in *;
          simplify_eq/=).

Lemma call_not_ConfigurationError {A} (o : outcome A) :
  call o ≠ Raise ConfigurationError.
Proof. by destruct o. Qed.

Lemma scan_not_ConfigurationError {C X Y} (f : C → X → outcome (C * Y)) c xs :
  scan f c xs ≠ Raise ConfigurationError.
Proof.
  revert c. induction xs as [|x xs IH]; intros c; simpl; [done|].
  destruct (f c x) as [[c' y]|s]; simpl; [|done].
  specialize (IH c'). destruct (scan f c' xs) as [[c'' ys]|e]; simpl; congruence.
Qed.

Lemma inference_loop_not_ConfigurationError key kernel st n :
  inference_loop key kernel st n ≠ Raise ConfigurationError.
Proof.
  unfold inference_loop. destruct (split_n key n) as [keys|s]; simpl; [|done].
  match goal with |- context [scan ?f st keys] =>
    pose proof (scan_not_ConfigurationError f st keys) as Hs;
    destruct (scan f st keys) as [[c ys]|e] end; simpl; congruence.
Qed.

Lemma _initialize_not_ConfigurationError key model data requested :
  _initialize key model data requested ≠ Raise ConfigurationError.
Proof.
  unfold _initialize, BlackJaxNumpyro_init, BlackJaxProvided_init, getattr, call.
  destruct (split key). simpl. split_cases; simpl; split_cases; congruence.
Qed.

(** Nothing in [fit] raises ConfigurationError, whatever it is given. *)
Lemma fit_not_ConfigurationError model data num_warmup num_samples self :
  (fit model data num_warmup num_samples self).1 ≠ Raise ConfigurationError.
Proof.
  step_method.
  pose proof (_initialize_not_ConfigurationError (split (rng_key self)).2
                model data None) as Hi.
  destruct (_initialize _ model data None) as [[ip ld]|e]; simpl; [|congruence].
  destruct (0 <? num_warmup); step_method.
  - destruct (window_adaptation _ _ _ _) as [adapt|s]; step_method; [|done].
    destruct (run adapt _ _) as [[st k]|s]; step_method; [|done].
    match goal with |- context [inference_loop ?a ?b ?c ?d] =>
      pose proof (inference_loop_not_ConfigurationError a b c d) as Hl;
      destruct (inference_loop a b c d) as [[ss infs]|e] end; simpl; congruence.
  - destruct (kernel_fn self ld _) as [k|s]; step_method; [|done].
    destruct (init k ip) as [st|s]; step_method; [|done].
    match goal with |- context [inference_loop ?a ?b ?c ?d] =>
      pose proof (inference_loop_not_ConfigurationError a b c d) as Hl;
      destruct (inference_loop a b c d) as [[ss infs]|e] end; simpl; congruence.
Qed.

(** A [fit] that returns has stored a new key once for the initial
    position, once in [run_warmup] when there is warmup, and once for
    the sampling loop. *)
Lemma fit_advances_rng_key model data num_warmup num_samples self :
  (fit model data num_warmup num_samples self).1 = Ok tt →
  rng_key (fit model data num_warmup num_samples self).2
  = Nat.iter (if 0 <? num_warmup then 3 else 2) advance (rng_key self).
Proof.
  step_method.
  destruct (_initialize _ model data None) as [[ip ld]|e]; simpl; [|done].
  destruct (0 <? num_warmup); step_method.
  - destruct (window_adaptation _ _ _ _) as [adapt|s]; step_method; [|done].
    destruct (run adapt _ _) as [[st k]|s]; step_method; [|done].
    by destruct (inference_loop _ _ _ _) as [[ss infs]|e].
  - destruct (kernel_fn self ld _) as [k|s]; step_method; [|done].
    destruct (init k ip) as [st|s]; step_method; [|done].
    by destruct (inference_loop _ _ _ _) as [[ss infs]|e].
Qed.

(** C3, as amended.  [fit] has no check on [num_samples] and never
    raises ConfigurationError.  Given that jax's key split throws on a
    negative count, a call with [num_samples < 0] does fail, but not up
    front: by then the stored key has been advanced between one and three
    times (for the initial position, for warmup, for the sampling loop),
    and the error is an AttributeError or whatever a collaborator threw.
    No states are stored. *)
Theorem fit_negative_num_samples model data num_warmup num_samples self :
  (∀ k n, n < 0 → ∃ what, split_n k n = Throws what) →
  num_samples < 0 →
  let out := fit model data num_warmup num_samples self in
  (∃ e, out.1 = Raise e ∧ e ≠ ConfigurationError)
  ∧ (∃ n, (1 ≤ n ≤ 3)%nat ∧ rng_key out.2 = Nat.iter n advance (rng_key self))
  ∧ states out.2 = states self.
Proof.
  intros Hsplit Hneg out.
  assert (Hloop : ∀ k kernel st, ∃ what,
             inference_loop k kernel st num_samples
             = Raise (CollaboratorError what)).
  { intros k kernel st. destruct (Hsplit k num_samples Hneg) as [what Hw].
    exists what. unfold inference_loop. by rewrite Hw. }
  pose proof (fit_not_ConfigurationError model data num_warmup num_samples self)
    as Hnot. fold out in Hnot.
  subst out. revert Hnot. step_method.
  destruct (_initialize _ model data None) as [[ip ld]|e]; simpl.
  2:{ intros Hnot. split; [exists e; split; congruence|].
      split; [exists 1%nat; split; [lia|done]|done]. }
  destruct (0 <? num_warmup); step_method.
  - destruct (window_adaptation _ _ _ _) as [adapt|s]; step_method.
    2:{ intros _. split; [eexists; split; [done|done]|].
        split; [exists 1%nat; split; [lia|done]|done]. }
    destruct (run adapt _ _) as [[st k]|s]; step_method.
    2:{ intros _. split; [eexists; split; [done|done]|].
        split; [exists 2%nat; split; [lia|done]|done]. }
    match goal with |- context [inference_loop ?a ?b ?c ?d] =>
      destruct (Hloop a b c) as [what ->] end. simpl.
    intros _. split; [eexists; split; [done|done]|].
    split; [exists 3%nat; split; [lia|done]|done].
  - destruct (kernel_fn self ld _) as [k|s]; step_method.
    2:{ intros _. split; [eexists; split; [done|done]|].
        split; [exists 1%nat; split; [lia|done]|done]. }
    destruct (init k ip) as [st|s]; step_method.
    2:{ intros _. split; [eexists; split; [done|done]|].
        split; [exists 1%nat; split; [lia|done]|done]. }
    match goal with |- context [inference_loop ?a ?b ?c ?d] =>
      destruct (Hloop a b c) as [what ->] end. simpl.
    intros _. split; [eexists; split; [done|done]|].
    split; [exists 2%nat; split; [lia|done]|done].
Qed.

(** With no warmup and collaborators that return, the failure is the
    key split's own, at the sampling loop. *)
Lemma fit_negative_at_sampling_loop model data num_warmup num_samples self
    ip ld kernel st what :
  num_warmup ≤ 0 →
  _initialize (split (rng_key self)).2 model data None = Ok (ip, ld) →
  kernel_fn self ld (kernel_kwargs self) = Returns kernel →
  init kernel ip = Returns st →
  split_n (split (advance (rng_key self))).2 num_samples = Throws what →
  fit model data num_warmup num_samples self
  = (Raise (CollaboratorError what),
     set_rng_key (advance (advance (rng_key self))) self).
Proof.
  intros Hw Hi Hk Hs Hsplit. step_method. rewrite Hi. simpl.
  destruct (0 <? num_warmup) eqn:E; [lia|]. step_method.
  rewrite Hk. step_method. rewrite Hs. step_method.
  unfold inference_loop. rewrite Hsplit. reflexivity.
Qed.

(** *** The [samples] property *)

(** C4 on a handler nothing has been fitted with.  [__init__] creates
    the attribute [state]; [samples] reads [states], which only [fit]
    creates, so reading the property raises AttributeError instead of
    returning an empty mapping. *)
Theorem samples_before_fit kernel kernel_kwargs :
  (samples (__init__ kernel kernel_kwargs)).1 = Raise (AttributeError "states")
  ∧ state (__init__ kernel kernel_kwargs) = None.
Proof. split; reflexivity. Qed.

(** After a run of no steps the stacked position still has every
    parameter as a key, each with an empty stack of draws. *)
Lemma stack_states_nil st :
  positions (stack_states st []) = (fun _ => stack []) <$> position st.
Proof.
  unfold stack_states. simpl. apply map_eq. intros k.
  rewrite map_lookup_imap, lookup_fmap. by destruct (position st !! k).
Qed.

Lemma inference_loop_zero key kernel st :
  split_n key 0 = Returns [] →
  inference_loop key kernel st 0 = Ok (stack_states st [], []).
Proof. intros Hs. unfold inference_loop. by rewrite Hs. Qed.

(** *** Reproducibility *)

(** [__init__] takes no seed: every handler starts from [PRNGKey(100)]. *)
Lemma __init___rng_key kernel kernel_kwargs :
  seed (__init__ kernel kernel_kwargs) = 100
  ∧ rng_key (__init__ kernel kernel_kwargs) = PRNGKey 100.
Proof. split; reflexivity. Qed.


End InferBlackJaxFacts.

(** ** The orchestrator on the small instance *)

Module ToyFacts.
Import Toy.

(** C1 fails as stated.  With a backend that is neither NUMPYRO nor
    PROVIDED the predictive path returns the empty mapping: the sampled
    key ["x"] is gone.  With a PROVIDED model whose predictive function
    produces ["x"] itself, the key stays and its sampled value is
    replaced. *)
Lemma _predict_drops_samples :
  _predict 1%positive model_other tt drawn None = Ok ∅
  ∧ ¬ (∀ k v, drawn !! k = Some v → (∅ : Samples) !! k = Some v).
Proof.
  split; [reflexivity|]. intros Hclaim.
  specialize (Hclaim "x" [1; 2] eq_refl).
  by rewrite lookup_empty in Hclaim.
Qed.

Example _predict_other_backend :
  _predict 1%positive model_other tt drawn None = Ok ∅.
Proof. reflexivity. Qed.

Example _predict_provided_overrides :
  _predict 1%positive model_provided tt drawn None = Ok {["x" := [7]]}.
Proof. vm_compute. reflexivity. Qed.

Example _predict_default_extends :
  _predict 1%positive model tt drawn None
  = Ok (dict_merge drawn {["y" := [3]]}).
Proof. reflexivity. Qed.

(** C2 on a fresh handler: after [predict] the stored key is still
    [PRNGKey(100)], not the key a split would have stored. *)
Example predict_fresh_rng_key :
  rng_key (predict model tt fresh).2 = 100%positive
  ∧ advance (rng_key fresh) = 200%positive.
Proof. split; reflexivity. Qed.

(** ... while [fit] stores a new key for the initial position and one
    for the sampling loop. *)
Example fit_fresh_rng_key :
  rng_key (fit model tt 0 2 fresh).2 = 400%positive
  ∧ (fit model tt 0 2 fresh).1 = Ok tt.
Proof. split; reflexivity. Qed.

(** C3 fails as stated.  [fit] with [num_samples = -1] does not raise
    ConfigurationError: it resolves the initial position, builds the
    kernel, advances the stored key twice, and then fails inside the key
    split of the sampling loop with that collaborator's error. *)
Lemma fit_negative_not_ConfigurationError :
  (fit model tt 0 (-1) fresh).1 ≠ Raise ConfigurationError
  ∧ fit model tt 0 (-1) fresh
    = (Raise (CollaboratorError "negative key count"),
       set_rng_key 400%positive fresh).
Proof. split; [discriminate|reflexivity]. Qed.

Lemma split_n_negative (k : Key) (n : Z) :
  n < 0 → ∃ what, split_n k n = Throws what.
Proof.
  intros Hn. exists "negative key count". simpl.
  destruct (n <? 0) eqn:E; [done|lia].
Qed.

Lemma fit_negative_num_samples_witness :
  let out := fit model tt 0 (-1) fresh in
  (∃ e, out.1 = Raise e ∧ e ≠ ConfigurationError)
  ∧ (∃ n, (1 ≤ n ≤ 3)%nat ∧ rng_key out.2 = Nat.iter n advance (rng_key fresh))
  ∧ states out.2 = states fresh.
Proof.
  apply (fit_negative_num_samples model tt 0 (-1) fresh split_n_negative).
  lia.
Defined.

(** C4 on a fitted handler with no draws: the samples are not the empty
    mapping, they have the parameter ["x"] with an empty stack. *)
Example samples_after_fit_zero :
  (samples (fit model tt 0 0 fresh).2).1 = Ok {["x" := []]}.
Proof. vm_compute. reflexivity. Qed.

Example samples_after_fit_two :
  (samples (fit model tt 0 2 fresh).2).1 = Ok {["x" := [0; 0]]}.
Proof. vm_compute. reflexivity. Qed.


End ToyFacts.

(** ** The generative models *)

Section ArrayFacts.
Open Scope R_scope.
Import Renewal.

Lemma sum_cons (x : R) (l : list R) : sum (x :: l) = x + sum l.
Proof. reflexivity. Qed.

Lemma sum_app (l k : list R) : sum (l ++ k) = sum l + sum k.
Proof.
  induction l as [|x l IH]; [simpl; lra|].
  rewrite <- app_comm_cons, !sum_cons, IH. lra.
Qed.

Lemma sum_divide (l : list R) (c : R) :
  sum ((fun x => x / c) <$> l) = sum l / c.
Proof.
  induction l as [|x l IH].
  - simpl. unfold Rdiv. lra.
  - rewrite fmap_cons, !sum_cons, IH. unfold Rdiv. lra.
Qed.

Lemma sum_nonneg (l : list R) : Forall (Rlt 0) l → 0 <= sum l.
Proof.
  induction 1 as [|x l Hx _ IH]; [simpl; lra|]. rewrite sum_cons. lra.
Qed.

Lemma sum_pos (l : list R) : l ≠ [] → Forall (Rlt 0) l → 0 < sum l.
Proof.
  intros Hne Hpos. destruct Hpos as [|x l Hx Hl]; [done|].
  rewrite sum_cons. pose proof (sum_nonneg l Hl). lra.
Qed.

Lemma sum_normalized (l : list R) :
  sum l ≠ 0 → sum ((fun x => x / sum l) <$> l) = 1.
Proof. intros Hs. rewrite sum_divide. by field. Qed.

Lemma divide_rows_sum_axis1 (m : matrix R) :
  divide_rows m (sum_axis1 m)
  = (fun row : list R => (fun x => x / sum row) <$> row) <$> m.
Proof.
  unfold divide_rows, sum_axis1.
  induction m as [|row m IH]; [done|].
  rewrite !fmap_cons. cbn [zip_with]. by rewrite IH.
Qed.

Lemma jnp_take_elem_of {A} (m : list A) (idx : list nat) (x : A) :
  x ∈ jnp_take m idx → x ∈ m.
Proof.
  unfold jnp_take. rewrite list_elem_of_omap. intros (i & _ & Hi).
  by eapply list_elem_of_lookup_2.
Qed.

Lemma obs_range_lookup (seed_L T d : nat) :
  (d < T)%nat → obs_range seed_L T !! d = Some (seed_L + d)%nat.
Proof.
  intros Hd. unfold obs_range, arange2.
  apply lookup_seq_lt. lia.
Qed.

Lemma jnp_take_obs_range {A} (m : list A) (seed_L T : nat) :
  (seed_L + T ≤ length m)%nat →
  jnp_take m (obs_range seed_L T) = take T (drop seed_L m).
Proof.
  unfold jnp_take, obs_range, arange2.
  replace (seed_L + T - seed_L)%nat with T by lia.
  revert m seed_L. induction T as [|T IH]; intros m s Hlen; simpl.
  - by rewrite take_0.
  - destruct (lookup_lt_is_Some_2 m s) as [x Hx]; [lia|].
    rewrite Hx. simpl. rewrite (drop_S _ _ _ Hx). simpl.
    f_equal. apply IH. lia.
Qed.

Lemma positive_row_sum (m : matrix R) (row : list R) :
  positive m → row ∈ m → sum row ≠ 0.
Proof.
  intros Hm Hrow. unfold positive in Hm. rewrite Forall_forall in Hm.
  destruct (Hm row Hrow) as [Hne Hpos].
  pose proof (sum_pos row Hne Hpos). lra.
Qed.

Lemma normalized_rows_sum (m : matrix R) (row : list R) :
  positive m →
  row ∈ (fun row : list R => (fun x => x / sum row) <$> row) <$> m →
  sum row = 1.
Proof.
  intros Hm. rewrite list_elem_of_fmap. intros (row0 & -> & Hrow0).
  apply sum_normalized. by eapply positive_row_sum.
Qed.

(** *** The reporting cycle *)

Lemma exp_logits_positive (l : list R) : Forall (Rlt 0) (exp <$> l).
Proof. apply Forall_fmap, Forall_true. intros x. apply exp_pos. Qed.

(** C6, as amended.  In the renewal model the cycle handed to
    [reporting_to_vec] is the exponentiated sampled logits followed by
    the reference value 1, every entry divided by the total: it has one
    entry more than was sampled and sums to 1.  In the spline model the
    cycle is the sampled fractions as they are. *)
Theorem reporting_cycle (rho_logits_sample rho_sample : list R) :
  let explicit := (fun x => exp (x * 3)) <$> rho_logits_sample in
  Renewal.rho rho_logits_sample
  = (fun x => x / sum (explicit ++ [1])) <$> (explicit ++ [1])
  ∧ length (Renewal.rho rho_logits_sample) = S (length rho_logits_sample)
  ∧ sum (Renewal.rho rho_logits_sample) = 1
  ∧ Spline.rho rho_sample = rho_sample.
Proof.
  intros explicit.
  assert (Heq : exp <$> (((fun x => x * 3) <$> rho_logits_sample) ++ [0])
                = explicit ++ [1]).
  { rewrite fmap_app, <- list_fmap_compose. simpl. by rewrite exp_0. }
  unfold Renewal.rho. rewrite Heq.
  split; [done|]. split.
  - rewrite length_fmap, length_app. subst explicit.
    rewrite length_fmap. simpl. lia.
  - split; [|done]. apply sum_normalized.
    assert (0 < sum (explicit ++ [1])); [|lra].
    apply sum_pos; [by destruct explicit|].
    rewrite <- Heq. apply exp_logits_positive.
Qed.

(** C6 fails as stated: seven [Beta(5, 5)] draws of one half are a cycle
    of the spline model; it has the seven sampled entries and no eighth,
    and it sums to seven halves. *)
Lemma spline_cycle_not_normalized :
  let rho_sample := replicate 7 (1 / 2) in
  Forall (fun x => 0 < x < 1) rho_sample
  ∧ length (Spline.rho rho_sample) = 7%nat
  ∧ sum (Spline.rho rho_sample) ≠ 1.
Proof.
  simpl. split; [repeat constructor; lra|]. split; [done|].
  unfold Spline.rho, sum. simpl. lra.
Qed.

(** *** Frequencies *)

(** C8.  Over the reals, for a prevalence whose entries are all
    positive (the renewal model's clipped [I_prev], the spline model's
    [incidence]), every row of [freq] sums to 1; [freq] has the [T]
    observed rows in the renewal model and every row in the spline
    model. *)
Theorem freq_rows_sum_to_one (I_prev incidence : matrix R) (seed_L T : nat) :
  positive I_prev →
  positive incidence →
  (seed_L + T ≤ length I_prev)%nat →
  (length (Renewal.freq I_prev seed_L T) = T
   ∧ ∀ row, row ∈ Renewal.freq I_prev seed_L T → sum row = 1)
  ∧ (length (Spline.freq incidence) = length incidence
     ∧ ∀ row, row ∈ Spline.freq incidence → sum row = 1).
Proof.
  intros HI Hinc Hlen. split; split.
  - unfold Renewal.freq. rewrite jnp_take_obs_range.
    + rewrite length_take, length_drop. unfold _freq, total_prev.
      rewrite divide_rows_sum_axis1, length_fmap. lia.
    + unfold _freq, total_prev. by rewrite divide_rows_sum_axis1, length_fmap.
  - intros row Hrow. apply jnp_take_elem_of in Hrow.
    unfold _freq, total_prev in Hrow. rewrite divide_rows_sum_axis1 in Hrow.
    by apply (normalized_rows_sum I_prev).
  - unfold Spline.freq. by rewrite divide_rows_sum_axis1, length_fmap.
  - intros row Hrow. unfold Spline.freq in Hrow.
    rewrite divide_rows_sum_axis1 in Hrow.
    by apply (normalized_rows_sum incidence).
Qed.

(** The spline model's incidence is positive by construction. *)
Lemma incidence_entries_positive (X beta_mat : matrix R) (row : list R) :
  row ∈ Spline.incidence X beta_mat → Forall (Rlt 0) row.
Proof.
  unfold Spline.incidence. rewrite list_elem_of_fmap.
  intros (row0 & -> & _). apply exp_logits_positive.
Qed.

(** *** The growth rate *)






(** *** The reference variant *)

Lemma hstack_zeros_last (k : nat) (delta : matrix R) (row : list R) :
  row ∈ Spline.hstack_zeros k delta → last row = Some 0.
Proof.
  unfold Spline.hstack_zeros.
  intros (d & z & -> & _ & Hz)%elem_of_zip_with.
  apply elem_of_replicate_inv in Hz as ->. apply last_snoc.
Qed.

Lemma beta_mat_last_column (beta : list R) (M : matrix R) :
  length M = length beta →
  Forall (fun row => last row = Some 0) M →
  last <$> zip_with (fun b (row : list R) => (fun d => b + d) <$> row) beta M
  = Some <$> beta.
Proof.
  revert M. induction beta as [|b beta IH]; intros [|row M] Hlen HM;
    simplify_eq/=; [done|].
  inversion HM as [|? ? Hrow HM']; subst.
  rewrite IH by done. f_equal.
  rewrite fmap_last, Hrow. simpl. f_equal. lra.
Qed.

(** C10.  In multinomial logistic regression every row of [beta] ends
    in 0, whatever [raw_beta] is; in the spline model the last column of
    [beta_mat] is [beta] itself.  The coefficients of the last variant
    carry no offset. *)
Theorem last_variant_is_reference (N_features k : nat) (raw_beta : matrix R)
    (beta_0 : R) (beta_rw : list R) (delta_rw : matrix R) :
  length raw_beta = N_features →
  S (length beta_rw) = k →
  (length (MLR.beta N_features raw_beta) = N_features
   ∧ Forall (fun row => last row = Some 0) (MLR.beta N_features raw_beta))
  ∧ (length (Spline.beta_mat k (Spline.beta beta_0 beta_rw) delta_rw) = k
     ∧ last <$> Spline.beta_mat k (Spline.beta beta_0 beta_rw) delta_rw
       = Some <$> Spline.beta beta_0 beta_rw).
Proof.
  intros Hraw Hk. split; split.
  - unfold MLR.beta, MLR.column_stack, MLR.zeros.
    rewrite length_zip_with, length_replicate. lia.
  - apply Forall_forall. intros row.
    unfold MLR.beta, MLR.column_stack, MLR.zeros.
    intros (r0 & z & -> & _ & Hz)%elem_of_zip_with.
    apply elem_of_replicate_inv in Hz as ->. apply last_snoc.
  - unfold Spline.beta_mat, Spline.hstack_zeros, Spline.transpose, Spline.beta.
    rewrite !length_zip_with, !length_fmap, length_replicate.
    unfold arange. rewrite length_seq. cbn [length]. lia.
  - unfold Spline.beta_mat. apply beta_mat_last_column.
    + unfold Spline.hstack_zeros, Spline.transpose, Spline.beta, arange.
      rewrite length_zip_with, !length_fmap, length_replicate, length_seq.
      cbn [length]. lia.
    + apply Forall_forall. intros row. apply hstack_zeros_last.
Qed.

End ArrayFacts.

(** ** The seeding window *)

Section Seeding.
Context {A : Type}.
Implicit Types (m : matrix A) (fo : list nat) (vals : list A).



Lemma length_tile {B} (l : list B) (n : nat) :
  length (tile l n) = (n * length l)%nat.
Proof.
  unfold tile. induction n as [|n IH]; simpl; [done|].
  by rewrite length_app, IH.
Qed.




End Seeding.

Section SeedingWindow.
Open Scope R_scope.
Import Renewal.

Lemma argmax_spec (l : list bool) :
  existsb (fun b => b) l = true →
  l !! argmax l = Some true ∧ ∀ i, (i < argmax l)%nat → l !! i = Some false.
Proof.
  induction l as [|b l IH]; [done|]. simpl.
  destruct b; simpl.
  - intros _. split; [done|]. intros i Hi. lia.
  - intros Hex. rewrite Hex. destruct (IH Hex) as [Hat Hbefore].
    split; [done|]. intros [|i] Hi; [done|]. simpl. apply Hbefore. lia.
Qed.

Lemma argmax_none (l : list bool) :
  existsb (fun b => b) l = false → argmax l = 0%nat.
Proof. destruct l as [|[] l]; simpl; try done. by intros ->. Qed.


(** The first-detection day of a variant with an observed nonzero count:
    the earliest day whose count is neither masked nor zero. *)
Lemma first_obs_earliest (seq_counts : matrix count) (v f : nat) :
  first_obs seq_counts !! v = Some f →
  (∃ t n, get2 seq_counts t v = Some (Some n) ∧ n ≠ 0%Z) →
  (∃ n, get2 seq_counts f v = Some (Some n) ∧ n ≠ 0%Z)
  ∧ ∀ t n, (t < f)%nat → get2 seq_counts t v = Some (Some n) → n = 0%Z.
Proof.
  unfold first_obs, shape, arange. simpl.
  rewrite list_lookup_fmap. intros Hf (t0 & n0 & Ht0 & Hn0).
  destruct (seq 0 _ !! v) as [v'|] eqn:Hv; [|done].
  apply lookup_seq in Hv as [-> _]. simpl in Hf. simplify_eq.
  set (l := (fun c => nonzero (mjoin c)) <$> column v seq_counts).
  assert (Hl : ∀ t, l !! t = (fun row : list count => nonzero (mjoin (row !! v)))
                               <$> seq_counts !! t).
  { intros t. unfold l, column. rewrite !list_lookup_fmap.
    by destruct (seq_counts !! t). }
  assert (Hex : existsb (fun b => b) l = true).
  { apply existsb_exists. exists true. split; [|done].
    apply list_elem_of_In, list_elem_of_lookup. exists t0. rewrite Hl.
    unfold get2 in Ht0. apply bind_Some in Ht0 as (row & -> & Hrow).
    cbn. rewrite Hrow. cbn. f_equal.
    by destruct (Z.eqb_spec n0 0). }
  destruct (argmax_spec l Hex) as [Hat Hbefore]. split.
  - rewrite Hl in Hat. unfold get2.
    destruct (seq_counts !! argmax l) as [row|]; [|done]. cbn in *.
    destruct (row !! v) as [[n|]|]; simplify_eq/=.
    exists n. split; [done|]. by intros ->.
  - intros t n Ht Hget. specialize (Hbefore t Ht). rewrite Hl in Hbefore.
    unfold get2 in Hget. apply bind_Some in Hget as (row & Hrow & Hv).
    rewrite Hrow in Hbefore. cbn in Hbefore. rewrite Hv in Hbefore.
    cbn in Hbefore. by destruct (Z.eqb_spec n 0).
Qed.





Example intros_one_variant :
  intros [[Some 0%Z]; [Some 5%Z]] 2 0 [0]
  = [[0]; [exp (0 * 3)]; [exp (0 * 3)]; [0]].
Proof. reflexivity. Qed.

End SeedingWindow.

(** ** The theorems on concrete arrays *)

Section Instances.
Open Scope R_scope.
Import Renewal.

Ltac positive_entries :=
  unfold positive;
  repeat first [ apply Forall_nil_2 | apply Forall_cons_2 | split
               | discriminate | lra ].

Lemma freq_rows_sum_to_one_witness :
  (length (Renewal.freq [[1; 3]; [2; 2]; [4; 1]] 1 2) = 2%nat
   ∧ ∀ row, row ∈ Renewal.freq [[1; 3]; [2; 2]; [4; 1]] 1 2 → sum row = 1)
  ∧ (length (Spline.freq [[1; 1]; [2; 5]]) = length [[1; 1]; [2; 5]]
     ∧ ∀ row, row ∈ Spline.freq [[1; 1]; [2; 5]] → sum row = 1).
Proof.
  apply (freq_rows_sum_to_one [[1; 3]; [2; 2]; [4; 1]] [[1; 1]; [2; 5]] 1 2);
    [positive_entries|positive_entries|simpl; lia].
Defined.

Example freq_two_rows :
  Renewal.freq [[1; 3]; [2; 2]; [4; 1]] 1 2
  = [[2 / (2 + (2 + 0)); 2 / (2 + (2 + 0))];
     [4 / (4 + (1 + 0)); 1 / (4 + (1 + 0))]].
Proof. reflexivity. Qed.


Example r_two_rows :
  Renewal.r [[1; 2]; [3; 4]; [5; 6]] 1 2
  = [[None; None]; [Some (ln 5 - ln 3); Some (ln 6 - ln 4)]].
Proof. reflexivity. Qed.

Lemma last_variant_is_reference_witness :
  (length (MLR.beta 2 [[1; 2]; [3; 4]]) = 2%nat
   ∧ Forall (fun row => last row = Some 0) (MLR.beta 2 [[1; 2]; [3; 4]]))
  ∧ (length (Spline.beta_mat 2 (Spline.beta 1 [3]) [[5; 6]]) = 2%nat
     ∧ last <$> Spline.beta_mat 2 (Spline.beta 1 [3]) [[5; 6]]
       = Some <$> Spline.beta 1 [3]).
Proof.
  apply (last_variant_is_reference 2 2 [[1; 2]; [3; 4]] 1 [3] [[5; 6]]);
    reflexivity.
Defined.

Example MLR_beta_two_features :
  MLR.beta 2 [[1; 2]; [3; 4]] = [[1; 2; 0]; [3; 4; 0]].
Proof. reflexivity. Qed.

Example beta_mat_two_variants :
  Spline.beta_mat 2 (Spline.beta 1 [3]) [[5; 6]]
  = [[1 + 0 + 5; 1 + 0 + 0]; [1 + 3 + 6; 1 + 3 + 0]].
Proof. reflexivity. Qed.

Example rho_two_logits :
  Renewal.rho [0; 0]
  = (fun x => x / (exp (0 * 3) + (exp (0 * 3) + (exp 0 + 0))))
      <$> [exp (0 * 3); exp (0 * 3); exp 0].
Proof. reflexivity. Qed.

End Instances.

(** * Further properties *)

(** ** The sampling loop and what [fit] leaves behind *)

Section InferBlackJaxMore.
Context `{Collaborators}.

(** The state a step starts from: the initial state for the first step,
    the state collected at the step before for every other. *)
Definition left_by (st : State) (ss : list State) (i : nat) : State :=
  match i with
  | O => st
  | S j => default st (ss !! j)
  end.

Lemma scan_one_step_in_order (kernel : StepFn) (keys : list Key) (st : State) :
  (∀ k s, ∃ s' info, kernel k s = Returns (s', info)) →
  ∃ c ys,
    scan (fun (state : State) (rng_key : Key) =>
            match kernel rng_key state with
            | Returns (state, info) => Returns (state, (state, info))
            | Throws s => Throws s
            end) st keys = Ok (c, ys)
    ∧ length ys = length keys
    ∧ ∀ i k, keys !! i = Some k →
        ∃ s' info, ys !! i = Some (s', info)
                   ∧ kernel k (left_by st (fst <$> ys) i) = Returns (s', info).
Proof.
  intros Hk. revert st. induction keys as [|k keys IH]; intros st.
  - exists st, []. split; [done|]. split; [done|]. intros i k Hi.
    by rewrite lookup_nil in Hi.
  - destruct (Hk k st) as (s1 & info1 & Hstep).
    destruct (IH s1) as (c & ys & Hscan & Hlen & Hchain).
    exists c, ((s1, info1) :: ys). simpl. rewrite Hstep. simpl.
    rewrite Hscan. simpl. split; [done|]. split; [by rewrite Hlen|].
    intros [|i] k' Hi; simplify_eq/=.
    + by exists s1, info1.
    + destruct (Hchain i k' Hi) as (s' & info & Hy & Hstep').
      exists s', info. split; [done|]. destruct i as [|i]; [done|].
      simpl in *. destruct (Hchain i) with (k := default k' (keys !! i))
        as (s0 & info0 & Hy0 & _).
      { apply lookup_lt_Some in Hi.
        destruct (lookup_lt_is_Some_2 keys i) as [k0 ->]; [lia|done]. }
      rewrite list_lookup_fmap, Hy0 in Hstep' |- *. done.
Qed.

(** X1.  When the key split returns [keys] and the kernel returns at
    every step, [inference_loop] returns one state and one diagnostic
    per key, in the order of the keys, and step [i] is the kernel applied
    to key [i] and to the state that step [i - 1] left (the initial state
    for the first). *)
Theorem inference_loop_in_order (key : Key) (kernel : StepFn) (st : State)
    (num_samples : Z) (keys : list Key) :
  split_n key num_samples = Returns keys →
  (∀ k s, ∃ s' info, kernel k s = Returns (s', info)) →
  ∃ ss infos,
    inference_loop key kernel st num_samples = Ok (stack_states st ss, infos)
    ∧ length ss = length keys ∧ length infos = length keys
    ∧ ∀ i k, keys !! i = Some k →
        ∃ s' info, ss !! i = Some s' ∧ infos !! i = Some info
                   ∧ kernel k (left_by st ss i) = Returns (s', info).
Proof.
  intros Hsplit Hk.
  destruct (scan_one_step_in_order kernel keys st Hk)
    as (c & ys & Hscan & Hlen & Hchain).
  exists (fst <$> ys), (snd <$> ys). unfold inference_loop.
  rewrite Hsplit. simpl. rewrite Hscan. simpl.
  split; [done|]. rewrite !length_fmap. split; [done|]. split; [done|].
  intros i k Hi. destruct (Hchain i k Hi) as (s' & info & Hy & Hstep).
  exists s', info. by rewrite !list_lookup_fmap, Hy.
Qed.

(** A step that throws ends the loop with that error: nothing of the
    steps before it is returned. *)
Lemma inference_loop_first_step_throws key kernel st num_samples k keys what :
  split_n key num_samples = Returns (k :: keys) →
  kernel k st = Throws what →
  inference_loop key kernel st num_samples = Raise (CollaboratorError what).
Proof.
  intros Hsplit Hstep. unfold inference_loop. rewrite Hsplit. simpl.
  by rewrite Hstep.
Qed.

Ltac run_fit :=
  unfold fit, run_warmup, samples, mbind, read, pure, ret; simpl;
  rewrite ?advance_rng_key_spec; simpl.

(** X2.  [fit] never touches the kernel, its keyword arguments, the
    seed or [self.state].  When it returns it has stored states and
    diagnostics, and [samples] then returns the stacked position; when it
    raises, the states and diagnostics of the handler are the ones it had
    before the call. *)
Theorem fit_outcome model data num_warmup num_samples self :
  let out := fit model data num_warmup num_samples self in
  kernel_fn out.2 = kernel_fn self
  ∧ kernel_kwargs out.2 = kernel_kwargs self
  ∧ seed out.2 = seed self
  ∧ state out.2 = state self
  ∧ match out.1 with
    | Ok _ =>
      ∃ s i, states out.2 = Some (Some s) ∧ infos out.2 = Some i
             ∧ (samples out.2).1 = Ok (positions s)
    | Raise _ => states out.2 = states self ∧ infos out.2 = infos self
    end.
Proof.
  run_fit.
  destruct (_initialize _ model data None) as [[ip ld]|e]; simpl; [|done].
  destruct (0 <? num_warmup); run_fit.
  - destruct (window_adaptation _ _ _ _) as [adapt|s]; run_fit; [|done].
    destruct (run adapt _ _) as [[st k]|s]; run_fit; [|done].
    destruct (inference_loop _ _ _ _) as [[ss infs]|e]; simpl; [|done].
    repeat (split; [done|]). by exists ss, infs.
  - destruct (kernel_fn self ld _) as [k|s]; run_fit; [|done].
    destruct (init k ip) as [st|s]; run_fit; [|done].
    destruct (inference_loop _ _ _ _) as [[ss infs]|e]; simpl; [|done].
    repeat (split; [done|]). by exists ss, infs.
Qed.

(** X3.  A [fit] that returns has advanced the stored key twice
    without warmup and three times with it. *)
Theorem fit_advances_stored_key model data num_warmup num_samples self :
  (fit model data num_warmup num_samples self).1 = Ok tt →
  rng_key (fit model data num_warmup num_samples self).2
  = Nat.iter (if 0 <? num_warmup then 3 else 2) advance (rng_key self).
Proof.
  run_fit.
  destruct (_initialize _ model data None) as [[ip ld]|e]; simpl; [|done].
  destruct (0 <? num_warmup); run_fit.
  - destruct (window_adaptation _ _ _ _) as [adapt|s]; run_fit; [|done].
    destruct (run adapt _ _) as [[st k]|s]; run_fit; [|done].
    by destruct (inference_loop _ _ _ _) as [[ss infs]|e].
  - destruct (kernel_fn self ld _) as [k|s]; run_fit; [|done].
    destruct (init k ip) as [st|s]; run_fit; [|done].
    by destruct (inference_loop _ _ _ _) as [[ss infs]|e].
Qed.

End InferBlackJaxMore.

Module ToyMore.
Import Toy.

Lemma still_returns (k : Key) (s : State) :
  ∃ s' info, still k s = Returns (s', info).
Proof. by exists s, tt. Qed.

Lemma inference_loop_in_order_witness :
  ∃ ss infos,
    @inference_loop _ collaborators 401%positive still (start None) 2
    = Ok (stack_states (start None) ss, infos)
    ∧ length ss = length [402%positive; 403%positive]
    ∧ length infos = length [402%positive; 403%positive]
    ∧ ∀ i k, [402%positive; 403%positive] !! i = Some k →
        ∃ s' info, ss !! i = Some s' ∧ infos !! i = Some info
                   ∧ still k (left_by (start None) ss i) = Returns (s', info).
Proof.
  apply (@inference_loop_in_order _ collaborators 401%positive still
           (start None) 2 [402%positive; 403%positive] eq_refl still_returns).
Defined.

Lemma fit_advances_stored_key_witness :
  rng_key (fit model tt 3 2 fresh).2
  = Nat.iter (if 0 <? 3 then 3 else 2) advance (rng_key fresh).
Proof.
  apply (fit_advances_stored_key model tt 3 2 fresh). reflexivity.
Defined.

End ToyMore.

(** ** The other sites of the renewal model *)

Section RenewalModelFacts.
Open Scope R_scope.
Import Renewal RenewalModel.

Lemma index_Found (names : list string) (s : string) :
  s ∈ names →
  ∃ j, index names s = Found j ∧ names !! j = Some s
       ∧ ∀ j', (j' < j)%nat → names !! j' ≠ Some s.
Proof.
  induction names as [|n names IH]; intros Hin; [by apply elem_of_nil in Hin|].
  simpl. destruct (decide (n = s)) as [->|Hne].
  - exists 0%nat. split; [done|]. split; [done|]. intros j' Hj'. lia.
  - apply elem_of_cons in Hin as [->|Hin]; [done|].
    destruct (IH Hin) as (j & -> & Hj & Hfirst). exists (S j).
    split; [done|]. split; [done|].
    intros [|j'] Hj'; simpl; [congruence|]. apply Hfirst. lia.
Qed.

Lemma index_NotFound (names : list string) (s : string) :
  s ∉ names → index names s = NotFound (ValueError s).
Proof.
  induction names as [|n names IH]; intros Hin; [done|].
  apply not_elem_of_cons in Hin as [Hne Hin]. simpl.
  rewrite decide_False by done. by rewrite IH.
Qed.

Lemma indices_Found (names var_names : list string) :
  Forall (fun s => s ∈ names) var_names →
  ∃ v_idx, indices names var_names = Found v_idx
    ∧ Forall2 (fun s j => names !! j = Some s
                          ∧ ∀ j', (j' < j)%nat → names !! j' ≠ Some s)
              var_names v_idx.
Proof.
  induction 1 as [|s var_names Hs _ (v_idx & Heq & Hall)].
  - exists []. by split.
  - destruct (index_Found names s Hs) as (j & Hj & Hat & Hfirst).
    exists (j :: v_idx). simpl. rewrite Hj, Heq. split; [done|].
    by constructor.
Qed.

Lemma indices_NotFound (names var_names : list string) :
  Exists (fun s => s ∉ names) var_names →
  ∃ s, s ∈ var_names ∧ (s ∉ names)
       ∧ indices names var_names = NotFound (ValueError s).
Proof.
  induction var_names as [|s var_names IH]; intros Hex; [by inversion Hex|].
  destruct (decide (s ∈ names)) as [Hin|Hnot].
  - assert (Hex' : Exists (fun s => s ∉ names) var_names)
      by (by inversion Hex).
    destruct (IH Hex') as (s' & Hs' & Hnot' & Heq).
    exists s'. split; [by right|]. split; [done|]. simpl.
    destruct (index_Found names s Hin) as (j & -> & _). by rewrite Heq.
  - exists s. split; [by left|]. split; [done|]. simpl.
    by rewrite index_NotFound.
Qed.

Lemma jnp_take_lookup {A} (m : list A) (idx : list nat) :
  Forall (fun j => (j < length m)%nat) idx →
  length (jnp_take m idx) = length idx
  ∧ ∀ i j, idx !! i = Some j → jnp_take m idx !! i = m !! j.
Proof.
  unfold jnp_take. induction 1 as [|j idx Hj _ [IHlen IH]]; [done|].
  destruct (lookup_lt_is_Some_2 m j Hj) as [x Hx]. cbn. rewrite Hx. cbn.
  split; [by rewrite IHlen|]. intros [|i] j' Hi; simplify_eq/=; [done|].
  by apply IH.
Qed.

(** X4.  With one generation time per named variant, [_g_rev] puts the
    rows in the order of the data's variants: row [i] is the row of
    [g_rev] at the first place where [gen_v_names] has the [i]-th variant
    name.  A variant name that [gen_v_names] lacks raises ValueError
    (from [list.index]). *)
Theorem _g_rev_follows_var_names (g : matrix R) (gen_v_names var_names : list string) :
  length g = length gen_v_names →
  (Forall (fun s => s ∈ gen_v_names) var_names →
   ∃ rows,
     _g_rev (TimesByVariant g) (Some gen_v_names) var_names
     = Found (TimesByVariant rows)
     ∧ length rows = length var_names
     ∧ ∀ i s, var_names !! i = Some s →
         ∃ j, gen_v_names !! j = Some s
              ∧ (∀ j', (j' < j)%nat → gen_v_names !! j' ≠ Some s)
              ∧ rows !! i = g !! j)
  ∧ (Exists (fun s => s ∉ gen_v_names) var_names →
     ∃ s, s ∈ var_names ∧ (s ∉ gen_v_names)
          ∧ _g_rev (TimesByVariant g) (Some gen_v_names) var_names
            = NotFound (ValueError s)).
Proof.
  intros Hlen. split.
  - intros Hall. destruct (indices_Found _ _ Hall) as (v_idx & Heq & Hidx).
    exists (jnp_take g v_idx). simpl. rewrite Heq.
    destruct (jnp_take_lookup g v_idx) as [Hl Hrows].
    { apply Forall_forall. intros j Hj.
      apply list_elem_of_lookup_1 in Hj as [i Hi].
      destruct (Forall2_lookup_r _ _ _ _ _ Hidx Hi) as (s & _ & Hat & _).
      apply lookup_lt_Some in Hat. lia. }
    split; [done|]. split; [by rewrite Hl, (Forall2_length _ _ _ Hidx)|].
    intros i s Hi.
    destruct (Forall2_lookup_l _ _ _ _ _ Hidx Hi) as (j & Hj & Hat & Hfirst).
    exists j. split; [done|]. split; [done|]. by apply Hrows.
  - intros Hex. destruct (indices_NotFound _ _ Hex) as (s & Hs & Hnot & Heq).
    exists s. simpl. by rewrite Heq.
Qed.

Lemma _g_rev_follows_var_names_witness :
  (Forall (fun s => s ∈ ["delta"; "omicron"]%string) ["omicron"; "delta"]%string →
   ∃ rows,
     _g_rev (TimesByVariant [[1; 0]; [0; 1]]) (Some ["delta"; "omicron"]%string)
            ["omicron"; "delta"]%string
     = Found (TimesByVariant rows)
     ∧ length rows = length ["omicron"; "delta"]%string
     ∧ ∀ i s, ["omicron"; "delta"]%string !! i = Some s →
         ∃ j, ["delta"; "omicron"]%string !! j = Some s
              ∧ (∀ j', (j' < j)%nat → ["delta"; "omicron"]%string !! j' ≠ Some s)
              ∧ rows !! i = [[1; 0]; [0; 1]] !! j)
  ∧ (Exists (fun s => s ∉ ["delta"; "omicron"]%string) ["omicron"; "delta"]%string →
     ∃ s, s ∈ ["omicron"; "delta"]%string
          ∧ (s ∉ ["delta"; "omicron"]%string)
          ∧ _g_rev (TimesByVariant [[1; 0]; [0; 1]])
                   (Some ["delta"; "omicron"]%string) ["omicron"; "delta"]%string
            = NotFound (ValueError s)).
Proof.
  apply (_g_rev_follows_var_names [[1; 0]; [0; 1]]
           ["delta"; "omicron"]%string ["omicron"; "delta"]%string).
  reflexivity.
Defined.

Example _g_rev_reorders :
  _g_rev (TimesByVariant [[1; 0]; [0; 1]]) (Some ["delta"; "omicron"]%string)
         ["omicron"; "delta"]%string
  = Found (TimesByVariant [[0; 1]; [1; 0]]).
Proof. reflexivity. Qed.

Example _g_rev_missing_name :
  _g_rev (TimesByVariant [[1; 0]; [0; 1]]) (Some ["delta"; "omicron"]%string)
         ["omicron"; "alpha"]%string
  = NotFound (ValueError "alpha").
Proof. reflexivity. Qed.

(** X5.  The reproduction numbers with their forecast: the sampled
    rows come first as they are, and each of the [forecast_L] rows after
    them is the last sampled row. *)
Theorem R_with_forecast_repeats_last (_R : matrix R) (forecast_L : nat)
    (last_row : list R) :
  last _R = Some last_row →
  ∃ R', R_with_forecast _R forecast_L = Some R'
    ∧ length R' = (length _R + forecast_L)%nat
    ∧ take (length _R) R' = _R
    ∧ ∀ t, (length _R ≤ t < length _R + forecast_L)%nat →
           R' !! t = Some last_row.
Proof.
  intros Hlast. unfold R_with_forecast, R_forecast. rewrite Hlast. simpl.
  destruct (0 <? forecast_L)%nat eqn:E.
  - exists (_R ++ replicate forecast_L last_row). split; [done|].
    split; [by rewrite length_app, length_replicate|].
    split; [by rewrite take_app_length|].
    intros t Ht. rewrite lookup_app_r by lia.
    apply lookup_replicate_2. lia.
  - apply Nat.ltb_ge in E. exists _R. split; [done|].
    split; [lia|]. split; [by rewrite firstn_all|]. intros t Ht. lia.
Qed.

Lemma R_with_forecast_repeats_last_witness :
  ∃ R', R_with_forecast [[1; 2]; [3; 4]] 2 = Some R'
    ∧ length R' = (length [[1; 2]; [3; 4]] + 2)%nat
    ∧ take (length [[1; 2]; [3; 4]]) R' = [[1; 2]; [3; 4]]
    ∧ ∀ t, (length [[1; 2]; [3; 4]] ≤ t < length [[1; 2]; [3; 4]] + 2)%nat →
           R' !! t = Some [3; 4].
Proof.
  apply (R_with_forecast_repeats_last [[1; 2]; [3; 4]] 2 [3; 4]). reflexivity.
Defined.

(** *** The introductions keep their shape *)




End RenewalModelFacts.

(** ** The deterministic sites of the renewal model *)

Section RenewalSitesFacts.
Open Scope R_scope.
Import Renewal RenewalModel.

Lemma jnp_take_fmap {A B} (f : A → B) (m : list A) (idx : list nat) :
  jnp_take (f <$> m) idx = f <$> jnp_take m idx.
Proof.
  unfold jnp_take. rewrite list_fmap_omap. apply list_omap_ext.
  apply Forall_Forall2_diag, Forall_true. intros i. apply list_lookup_fmap.
Qed.

Lemma sum_scaled (c : R) (l : list R) :
  sum ((fun x => c * x) <$> l) = c * sum l.
Proof.
  induction l as [|x l IH]; [simpl; lra|].
  rewrite fmap_cons, !sum_cons, IH. lra.
Qed.

(** X7.  At every observed time step the smoothed prevalences of the
    variants add up to the smoothed total prevalence: the row sums of
    [I_smooth] are [total_smooth_prev]. *)
Theorem I_smooth_adds_up_to_total (I_prev : matrix R) (rho_vec : list R)
    (seed_L T : nat) :
  sum_axis1 (I_smooth I_prev rho_vec seed_L T)
  = total_smooth_prev I_prev rho_vec seed_L T.
Proof.
  unfold sum_axis1, I_smooth, total_smooth_prev, total_prev, sum_axis1.
  rewrite jnp_take_fmap, <- !list_fmap_compose.
  apply list_fmap_ext. intros i row _. simpl. apply sum_scaled.
Qed.

Lemma freq_unfold (I_prev : matrix R) (seed_L T : nat) :
  freq I_prev seed_L T
  = (fun row : list R => (fun x => x / sum row) <$> row)
      <$> jnp_take I_prev (obs_range seed_L T).
Proof.
  unfold freq, _freq, total_prev.
  by rewrite divide_rows_sum_axis1, jnp_take_fmap.
Qed.

Lemma entry_le_sum (l : list R) (x : R) :
  Forall (Rlt 0) l → x ∈ l → x <= sum l.
Proof.
  induction 1 as [|y l Hy Hl IH]; intros Hin; [by apply elem_of_nil in Hin|].
  rewrite sum_cons. pose proof (sum_nonneg l Hl).
  apply elem_of_cons in Hin as [->|Hin]; [lra|]. specialize (IH Hin). lra.
Qed.

Lemma positive_taken (I_prev : matrix R) (idx : list nat) :
  positive I_prev → positive (jnp_take I_prev idx).
Proof.
  unfold positive. rewrite !Forall_forall. intros HI row Hrow.
  apply HI. by eapply jnp_take_elem_of.
Qed.

(** X8.  For a positive prevalence every frequency is positive and at
    most 1. *)
Theorem freq_entries_in_unit_interval (I_prev : matrix R) (seed_L T : nat) :
  positive I_prev →
  Forall (Forall (fun x => 0 < x <= 1)) (freq I_prev seed_L T).
Proof.
  intros HI. rewrite freq_unfold.
  apply (positive_taken _ (obs_range seed_L T)) in HI.
  apply Forall_fmap. eapply Forall_impl; [exact HI|].
  intros row [Hne Hpos]. simpl. apply Forall_fmap.
  pose proof (sum_pos row Hne Hpos) as HS.
  apply Forall_forall. intros x Hx. simpl.
  pose proof (entry_le_sum row x Hpos Hx) as Hle.
  rewrite Forall_forall in Hpos. specialize (Hpos x Hx). split.
  - by apply Rdiv_lt_0_compat.
  - apply (Rmult_le_reg_r (sum row)); [done|].
    unfold Rdiv. rewrite Rmult_assoc, Rinv_l by lra. lra.
Qed.

Lemma freq_entries_in_unit_interval_witness :
  Forall (Forall (fun x => 0 < x <= 1)) (freq [[1; 3]; [2; 2]; [4; 1]] 1 2).
Proof.
  apply (freq_entries_in_unit_interval [[1; 3]; [2; 2]; [4; 1]] 1 2).
  unfold positive.
  repeat first [ apply Forall_nil_2 | apply Forall_cons_2 | split
               | discriminate | lra ].
Defined.

(** A weighted sum with weights that are not negative and add up to 1
    lies between any two bounds of the weighted values. *)
Lemma weighted_sum_between (lo hi : R) (values weights : list R) :
  length values = length weights →
  Forall (fun x => lo <= x <= hi) values →
  Forall (fun w => 0 <= w) weights →
  lo * sum weights <= sum (zip_with Rmult values weights) <= hi * sum weights.
Proof.
  intros Hlen Hv. revert weights Hlen.
  induction Hv as [|x values Hx _ IH]; intros [|w weights] Hlen Hw;
    simplify_eq/=; [lra|].
  inversion Hw as [|? ? Hw0 Hws]; subst.
  specialize (IH weights ltac:(done) Hws).
  change (foldr Rplus 0 weights) with (sum weights).
  change (foldr Rplus 0 (zip_with Rmult values weights))
    with (sum (zip_with Rmult values weights)).
  nra.
Qed.

(** X9.  For a positive prevalence, the average reproduction number of
    a time step lies between any two bounds of that step's reproduction
    numbers: it is their average weighted by the frequencies. *)
Theorem R_ave_between_bounds (I_prev _R : matrix R) (seed_L T : nat)
    (lo hi : R) :
  positive I_prev →
  Forall2 (fun (Rrow irow : list R) => length Rrow = length irow)
          _R (jnp_take I_prev (obs_range seed_L T)) →
  Forall (Forall (fun x => lo <= x <= hi)) _R →
  length (R_ave I_prev _R seed_L T) = length _R
  ∧ Forall (fun a => lo <= a <= hi) (R_ave I_prev _R seed_L T).
Proof.
  intros HI. apply (positive_taken _ (obs_range seed_L T)) in HI.
  unfold R_ave, sum_axis1. rewrite freq_unfold.
  revert HI. generalize (jnp_take I_prev (obs_range seed_L T)) as rows.
  intros rows HI Hshape HR. revert HI HR.
  induction Hshape as [|Rrow irow _R rows Hlen _ IH]; intros HI HR; [done|].
  inversion HI as [|? ? [Hne Hpos] HI']; subst.
  inversion HR as [|? ? HRrow HR']; subst.
  destruct (IH HI' HR') as [IHlen IHall].
  rewrite fmap_cons. cbn [zip_with]. rewrite fmap_cons. split.
  - simpl. by rewrite IHlen.
  - apply Forall_cons_2; [|done].
    pose proof (sum_pos irow Hne Hpos) as HS.
    pose proof (weighted_sum_between lo hi Rrow
                  ((fun x => x / sum irow) <$> irow)) as Hw.
    rewrite sum_normalized in Hw by lra. rewrite !Rmult_1_r in Hw.
    apply Hw; [by rewrite length_fmap|done|].
    apply Forall_fmap. eapply Forall_impl; [exact Hpos|].
    intros x Hx. simpl. apply Rlt_le. by apply Rdiv_lt_0_compat.
Qed.

Lemma R_ave_between_bounds_witness :
  length (R_ave [[1; 3]; [2; 2]; [4; 1]] [[1; 2]; [2; 1 / 2]] 1 2)
  = length [[1; 2]; [2; 1 / 2]]
  ∧ Forall (fun a => 1 / 2 <= a <= 2)
           (R_ave [[1; 3]; [2; 2]; [4; 1]] [[1; 2]; [2; 1 / 2]] 1 2).
Proof.
  apply (R_ave_between_bounds [[1; 3]; [2; 2]; [4; 1]] [[1; 2]; [2; 1 / 2]]
           1 2 (1 / 2) 2).
  - unfold positive.
    repeat first [ apply Forall_nil_2 | apply Forall_cons_2 | split
                 | discriminate | lra ].
  - repeat constructor.
  - repeat first [ apply Forall_nil_2 | apply Forall_cons_2 | split | lra ].
Defined.




(** X20.  The expected cases: for a positive prevalence that covers
    the observed days and a positive reporting vector with an entry per
    observed day, [EC] has an entry per observed day and every entry is
    positive. *)
Theorem EC_positive (I_prev : matrix R) (rho_vec : list R) (seed_L T : nat) :
  positive I_prev →
  Forall (Rlt 0) rho_vec →
  length rho_vec = T →
  (seed_L + T ≤ length I_prev)%nat →
  length (EC I_prev rho_vec seed_L T) = T
  ∧ Forall (Rlt 0) (EC I_prev rho_vec seed_L T).
Proof.
  intros HI Hrho Hlen Hrows. unfold EC, total_prev, sum_axis1.
  rewrite jnp_take_fmap. split.
  - rewrite length_zip_with, length_fmap, jnp_take_obs_range by done.
    rewrite length_take, length_drop. lia.
  - apply Forall_zip_with_fst with (P := Rlt 0).
    + apply Forall_fmap.
      apply (positive_taken _ (obs_range seed_L T)) in HI.
      eapply Forall_impl; [exact HI|]. intros row [Hne Hpos]. simpl.
      by apply sum_pos.
    + eapply Forall_impl; [exact Hrho|]. intros w Hw x Hx.
      by apply Rmult_lt_0_compat.
Qed.

Lemma EC_positive_witness :
  length (EC [[1; 3]; [2; 2]; [4; 1]] [1 / 2; 1 / 4] 1 2) = 2%nat
  ∧ Forall (Rlt 0) (EC [[1; 3]; [2; 2]; [4; 1]] [1 / 2; 1 / 4] 1 2).
Proof.
  apply (EC_positive [[1; 3]; [2; 2]; [4; 1]] [1 / 2; 1 / 4] 1 2).
  - unfold positive.
    repeat first [ apply Forall_nil_2 | apply Forall_cons_2 | split
                 | discriminate | lra ].
  - repeat first [ apply Forall_nil_2 | apply Forall_cons_2 | lra ].
  - reflexivity.
  - simpl. lia.
Defined.

End RenewalSitesFacts.

(** ** The spline model and multinomial logistic regression *)

Section DotFacts.
Open Scope R_scope.
Import Renewal.

(** One row of [jnp.dot(X, B)]. *)
Definition dot_row (w : nat) (xrow : list R) (B : matrix R) : list R :=
  foldr (fun '(x, brow) acc => zip_with Rplus ((Rmult x) <$> (brow : list R)) acc)
        (replicate w 0) (zip xrow B).

Lemma dot_unfold (X B : matrix R) :
  Spline.dot X B = (fun xrow => dot_row (shape B).2 xrow B) <$> X.
Proof. reflexivity. Qed.

Lemma shape_rectangular (B : matrix R) (w : nat) :
  B ≠ [] → Forall (fun row => length row = w) B → (shape B).2 = w.
Proof. intros Hne HB. destruct HB as [|b B Hb _]; [done|]. done. Qed.

Lemma dot_row_length (w : nat) (xrow : list R) (B : matrix R) :
  Forall (fun row => length row = w) B → length (dot_row w xrow B) = w.
Proof.
  intros HB. revert xrow. unfold dot_row.
  induction HB as [|b B Hb _ IH]; intros [|x xrow]; simpl;
    try apply length_replicate.
  rewrite length_zip_with, length_fmap, IH, Hb. lia.
Qed.

Lemma last_zip_with {A B C} (f : A → B → C) (l : list A) (k : list B) a b :
  length l = length k → last l = Some a → last k = Some b →
  last (zip_with f l k) = Some (f a b).
Proof.
  rewrite !last_lookup, length_zip_with. intros Hlen Ha Hb.
  rewrite lookup_zip_with. rewrite <- Hlen, Nat.min_id, Ha. simpl.
  rewrite Hlen, Hb. done.
Qed.

Lemma dot_row_last_zero (w : nat) (xrow : list R) (B : matrix R) :
  (0 < w)%nat →
  Forall (fun row => length row = w ∧ last row = Some 0) B →
  last (dot_row w xrow B) = Some 0.
Proof.
  intros Hw HB. revert xrow.
  assert (Hzero : last (replicate w 0) = Some 0).
  { destruct w as [|w]; [lia|]. rewrite replicate_S_end. apply last_snoc. }
  unfold dot_row.
  induction HB as [|b B [Hb Hlast] HB IH]; intros [|x xrow]; simpl; try done.
  erewrite last_zip_with.
  - f_equal. instantiate (1 := 0). instantiate (1 := x * 0). lra.
  - rewrite length_fmap, Hb. symmetry. apply (dot_row_length w xrow B).
    eapply Forall_impl; [exact HB|]. by intros row [? _].
  - by rewrite fmap_last, Hlast.
  - apply IH.
Qed.

End DotFacts.

Section SplineFacts.
Open Scope R_scope.
Import Renewal.



(** X12.  The coefficient of knot [i] for a variant [j] other than the
    last is the baseline coefficient plus that variant's random-walk
    value at the knot: [beta_mat[i, j] = beta[i] + delta_rw[j, i]]. *)
Theorem beta_mat_entry (k : nat) (beta : list R) (delta_rw : matrix R)
    (i j : nat) (b d : R) (drow : list R) :
  (i < k)%nat →
  beta !! i = Some b →
  delta_rw !! j = Some drow →
  drow !! i = Some d →
  get2 (Spline.beta_mat k beta delta_rw) i j = Some (b + d).
Proof.
  intros Hi Hb Hrow Hd.
  unfold get2, Spline.beta_mat, Spline.hstack_zeros, Spline.transpose, arange.
  rewrite lookup_zip_with, Hb. cbn.
  rewrite lookup_zip_with, list_lookup_fmap, lookup_seq_lt by done. cbn.
  rewrite lookup_replicate_2 by done. cbn.
  rewrite list_lookup_fmap, lookup_app_l.
  - by rewrite list_lookup_fmap, Hrow; cbn; rewrite Hd.
  - rewrite length_fmap. by eapply lookup_lt_Some.
Qed.

Lemma beta_mat_entry_witness :
  get2 (Spline.beta_mat 2 (Spline.beta 1 [3]) [[5; 6]]) 1 0 = Some (1 + 3 + 6).
Proof.
  apply (beta_mat_entry 2 (Spline.beta 1 [3]) [[5; 6]] 1 0 (1 + 3) 6 [5; 6]);
    [lia|reflexivity|reflexivity|reflexivity].
Defined.

End SplineFacts.

Section MLRFacts.
Open Scope R_scope.
Import Renewal MLRModel.

Lemma softmax_row_sum (l : list R) : l ≠ [] → sum (softmax_row l) = 1.
Proof.
  intros Hne. unfold softmax_row. apply sum_normalized.
  assert (0 < sum (exp <$> l)); [|lra].
  apply sum_pos; [by destruct l|apply exp_logits_positive].
Qed.

Lemma softmax_row_positive (l : list R) : Forall (Rlt 0) (softmax_row l).
Proof.
  unfold softmax_row. destruct l as [|x l]; [constructor|].
  assert (HS : 0 < sum (exp <$> x :: l)).
  { apply sum_pos; [done|apply exp_logits_positive]. }
  apply Forall_fmap. eapply Forall_impl; [apply exp_logits_positive|].
  intros y Hy. simpl. by apply Rdiv_lt_0_compat.
Qed.

(** *** simulate_MLR_freq *)







(** *** MLR_numpyro *)

Lemma MLR_beta_rows (N_features n : nat) (raw_beta : matrix R) :
  Forall (fun row => length row = n) raw_beta →
  Forall (fun row => length row = S n ∧ last row = Some 0)
         (MLR.beta N_features raw_beta).
Proof.
  intros Hraw. apply Forall_forall. intros row.
  unfold MLR.beta, MLR.column_stack, MLR.zeros.
  intros (r0 & z & -> & Hr0 & Hz)%elem_of_zip_with.
  apply elem_of_replicate_inv in Hz as ->.
  rewrite Forall_forall in Hraw. rewrite length_app, (Hraw r0 Hr0). simpl.
  split; [lia|apply last_snoc].
Qed.

(** X15.  In multinomial logistic regression the logit of the last
    variant is 0 at every time step, whatever the entries of the features
    and of the sampled coefficients, and the frequency of the last variant is 1 over
    the sum of the exponentiated logits of that time step. *)
Theorem logits_last_variant_zero (X raw_beta : matrix R) (N_features n : nat) :
  (0 < N_features)%nat →
  length raw_beta = N_features →
  Forall (fun row => length row = n) raw_beta →
  Forall (fun xrow => length xrow = N_features) X →
  Forall (fun row => last row = Some 0
                     ∧ last (softmax_row row) = Some (1 / sum (exp <$> row)))
         (logits X (MLR.beta N_features raw_beta)).
Proof.
  intros HN Hlen Hraw _.
  pose proof (MLR_beta_rows N_features n raw_beta Hraw) as HB.
  assert (Hne : MLR.beta N_features raw_beta ≠ []).
  { intros Hnil. apply (f_equal length) in Hnil. revert Hnil.
    unfold MLR.beta, MLR.column_stack, MLR.zeros.
    rewrite length_zip_with, length_replicate. simpl. lia. }
  unfold logits. rewrite dot_unfold.
  rewrite (shape_rectangular _ (S n)) by
    (done || (eapply Forall_impl; [exact HB|]; by intros row [? _])).
  apply Forall_fmap, Forall_true. intros xrow. simpl.
  pose proof (dot_row_last_zero (S n) xrow _ ltac:(lia) HB) as Hlast.
  split; [done|]. unfold softmax_row.
  by rewrite !fmap_last, Hlast; simpl; rewrite exp_0.
Qed.

Lemma logits_last_variant_zero_witness :
  Forall (fun row => last row = Some 0
                     ∧ last (softmax_row row) = Some (1 / sum (exp <$> row)))
         (logits [[1; 0]; [1; 1]] (MLR.beta 2 [[1]; [2]])).
Proof.
  apply (logits_last_variant_zero [[1; 0]; [1; 1]] [[1]; [2]] 2 1);
    [lia|reflexivity|by repeat constructor|by repeat constructor].
Defined.

(** X16.  The frequencies of multinomial logistic regression: for a
    coefficient matrix with at least one row and one column and features
    whose rows fit it, there is a row per row of the features, every row sums to 1 and every frequency
    is positive. *)
Theorem MLR_freq_rows_sum_to_one (X beta : matrix R) (w : nat) :
  (0 < w)%nat → beta ≠ [] →
  Forall (fun row => length row = w) beta →
  Forall (fun xrow => length xrow = length beta) X →
  length (freq X beta) = length X
  ∧ Forall (fun row => sum row = 1 ∧ Forall (Rlt 0) row) (freq X beta).
Proof.
  intros Hw Hne HB _. unfold freq, softmax, logits. rewrite dot_unfold.
  rewrite (shape_rectangular beta w) by done.
  split; [by rewrite !length_fmap|].
  rewrite <- list_fmap_compose. apply Forall_fmap, Forall_true.
  intros xrow. simpl. split; [|apply softmax_row_positive].
  apply softmax_row_sum. intros Hnil. apply (f_equal length) in Hnil.
  rewrite dot_row_length in Hnil by done. simpl in Hnil. lia.
Qed.

Lemma MLR_freq_rows_sum_to_one_witness :
  length (freq [[1; 0]; [1; 1]] (MLR.beta 2 [[1]; [2]]))
  = length [[1; 0]; [1; 1]]
  ∧ Forall (fun row => sum row = 1 ∧ Forall (Rlt 0) row)
           (freq [[1; 0]; [1; 1]] (MLR.beta 2 [[1]; [2]])).
Proof.
  apply (MLR_freq_rows_sum_to_one [[1; 0]; [1; 1]] (MLR.beta 2 [[1]; [2]]) 2);
    [lia|discriminate|by repeat constructor|by repeat constructor].
Defined.

(** X17.  The growth advantages are read off the last feature row of
    the sampled [raw_beta] alone, one per variant other than the last:
    [ga = exp(raw_beta[-1] * tau)]; without [tau] the site is not
    computed. *)
Theorem ga_reads_last_feature_row (N_features : nat) (raw_beta : matrix R)
    (tau : R) (b : list R) :
  length raw_beta = N_features →
  last raw_beta = Some b →
  ga (MLR.beta N_features raw_beta) (Some tau)
  = Some ((fun x => exp (x * tau)) <$> b)
  ∧ ga (MLR.beta N_features raw_beta) None = None.
Proof.
  intros Hlen Hlast. split; [|done]. unfold ga. cbn.
  unfold MLR.beta, MLR.column_stack, MLR.zeros.
  erewrite last_zip_with; [| |exact Hlast|].
  - cbn. by rewrite removelast_last.
  - by rewrite length_replicate.
  - destruct N_features as [|N]; [by destruct raw_beta|].
    rewrite replicate_S_end. apply last_snoc.
Qed.

Lemma ga_reads_last_feature_row_witness :
  ga (MLR.beta 2 [[1; 2]; [3; 4]]) (Some 5)
  = Some ((fun x => exp (x * 5)) <$> [3; 4])
  ∧ ga (MLR.beta 2 [[1; 2]; [3; 4]]) None = None.
Proof.
  apply (ga_reads_last_feature_row 2 [[1; 2]; [3; 4]] 5 [3; 4]); reflexivity.
Defined.

End MLRFacts.

Section ForecastFacts.
Open Scope R_scope.
Import Renewal MLRModel.




Example make_ols_feature_empty : make_ols_feature 4 4 = [] ∧ make_ols_feature 4 2 = [].
Proof. split; reflexivity. Qed.

(** X19.  [forecast_frequencies] needs the keys ["freq"] and ["beta"]
    and raises KeyError for the first of them that is missing.  Otherwise
    (every draw of [beta] having the two rows that the two features
    need) it returns the samples with ["freq_forecast"] set and every other key
    as it was; the forecast has a matrix per posterior draw of [beta],
    each with [forecast_L] rows, and every row that has an entry sums
    to 1. *)
Theorem forecast_frequencies_adds_forecast (samples : gmap string (list (matrix R)))
    (forecast_L : Z) :
  (∀ beta, samples !! "beta" = Some beta →
           Forall (fun b : matrix R => length b = 2%nat) beta) →
  match forecast_frequencies samples forecast_L with
  | Found out =>
    ∃ beta freq_forecast,
      is_Some (samples !! "freq")
      ∧ samples !! "beta" = Some beta
      ∧ out !! "freq_forecast" = Some freq_forecast
      ∧ (∀ k, k ≠ "freq_forecast" → out !! k = samples !! k)
      ∧ length freq_forecast = length beta
      ∧ Forall (fun m : matrix R =>
                  length m = Z.to_nat forecast_L
                  ∧ Forall (fun row => row ≠ [] → sum row = 1) m)
               freq_forecast
  | NotFound e =>
    (samples !! "freq" = None ∧ e = KeyError "freq")
    ∨ (is_Some (samples !! "freq") ∧ samples !! "beta" = None
       ∧ e = KeyError "beta")
  end.
Proof.
  intros _. unfold forecast_frequencies, getitem.
  destruct (samples !! "freq") as [fr|] eqn:Hfreq; [|by left].
  destruct (samples !! "beta") as [beta|] eqn:Hbeta; [|right; eauto].
  eexists beta, _. split; [eauto|]. split; [done|].
  split; [apply lookup_insert_eq|].
  split; [intros k Hk; by apply lookup_insert_ne|].
  split; [by rewrite !length_fmap|].
  rewrite <- list_fmap_compose. apply Forall_fmap, Forall_true.
  intros b. simpl. unfold softmax. rewrite dot_unfold. split.
  - unfold as_float, make_ols_feature, arangeZ.
    rewrite !length_fmap, length_seq. f_equal. lia.
  - rewrite <- list_fmap_compose. apply Forall_fmap, Forall_true.
    intros xrow. simpl. intros Hne. apply softmax_row_sum.
    intros Hnil. rewrite Hnil in Hne. by apply Hne.
Qed.

Lemma forecast_frequencies_adds_forecast_witness :
  match forecast_frequencies
          {["freq" := [[[1 / 2; 1 / 2]]]; "beta" := [[[1; 0]; [2; 0]]]]} 2 with
  | Found out =>
    ∃ beta freq_forecast,
      is_Some (({["freq" := [[[1 / 2; 1 / 2]]]; "beta" := [[[1; 0]; [2; 0]]]]}
                : gmap string (list (matrix R))) !! "freq")
      ∧ ({["freq" := [[[1 / 2; 1 / 2]]]; "beta" := [[[1; 0]; [2; 0]]]]}
         : gmap string (list (matrix R))) !! "beta" = Some beta
      ∧ out !! "freq_forecast" = Some freq_forecast
      ∧ (∀ k, k ≠ "freq_forecast" →
              out !! k
              = ({["freq" := [[[1 / 2; 1 / 2]]]; "beta" := [[[1; 0]; [2; 0]]]]}
                 : gmap string (list (matrix R))) !! k)
      ∧ length freq_forecast = length beta
      ∧ Forall (fun m : matrix R =>
                  length m = Z.to_nat 2
                  ∧ Forall (fun row => row ≠ [] → sum row = 1) m)
               freq_forecast
  | NotFound e =>
    (({["freq" := [[[1 / 2; 1 / 2]]]; "beta" := [[[1; 0]; [2; 0]]]]}
      : gmap string (list (matrix R))) !! "freq" = None ∧ e = KeyError "freq")
    ∨ (is_Some (({["freq" := [[[1 / 2; 1 / 2]]]; "beta" := [[[1; 0]; [2; 0]]]]}
                 : gmap string (list (matrix R))) !! "freq")
       ∧ ({["freq" := [[[1 / 2; 1 / 2]]]; "beta" := [[[1; 0]; [2; 0]]]]}
          : gmap string (list (matrix R))) !! "beta" = None
       ∧ e = KeyError "beta")
  end.
Proof.
  apply (forecast_frequencies_adds_forecast
           {["freq" := [[[1 / 2; 1 / 2]]]; "beta" := [[[1; 0]; [2; 0]]]]} 2).
  intros beta Hbeta.
  assert (beta = [[[1; 0]; [2; 0]]]) as ->.
  { apply (inj Some). rewrite <- Hbeta. reflexivity. }
  by repeat constructor.
Defined.

Example forecast_frequencies_missing_beta :
  forecast_frequencies {["freq" := [[[1 / 2; 1 / 2]]]]} 3
  = NotFound (KeyError "beta").
Proof. reflexivity. Qed.

End ForecastFacts.
